(** * City Award Voting API: the vote-integrity and results core of [main.py]

    A shallow embedding of the request handlers of [main.py] (the JSON
    document store, the identity resolver, the vote ledger, the results
    aggregator and the admin gate) together with the properties that the
    design document states about them.

    Conventions.
    - A Python [dict] used as a map is a [gmap]; a JSON array is a [list].
    - Header values arrive decoded as latin-1, one character per byte, so a
      header value is a [string] whose characters are the code points 0..255.
    - A handler is a function over the document store that either returns a
      value or raises an [HTTPException]; every [load] and [save] is
      recorded in the store's access log. *)

From Stdlib Require Import ZArith String Ascii List Lia.
From stdpp Require Import base option list gmap strings fin_maps.

Local Open Scope string_scope.

(** ** Data models (the pydantic classes and the stored JSON records) *)

Module FooterLink.
Record t := mk { label : string; url : string }.
End FooterLink.

Module FooterSettings.
Record t := mk {
  logo_url : option string;
  description : option string;
  copyright : option string;
  links : list FooterLink.t
}.
Definition defaults : t :=
  mk (Some "")
     (Some "Официальная платформа голосования.")
     (Some "© 2025 City Voting Platform")
     [].
End FooterSettings.

Module HeaderSettings.
Record t := mk { show_logo : bool; logo_path : string }.
Definition defaults : t := mk true "win.png".
End HeaderSettings.

Module Settings.
Record t := mk {
  title : string;
  is_voting_active : bool;
  anti_abuse_enabled : bool;
  header : HeaderSettings.t;
  footer : FooterSettings.t
}.
Definition defaults : t :=
  mk "Городская Премия 2025" false true
     HeaderSettings.defaults FooterSettings.defaults.
End Settings.

Module Participant.
Record t := mk {
  id : string;
  name : string;
  description : option string;
  image_url : option string
}.
End Participant.

(** The categories table is written through this model only
    ([update_categories] saves [c.dict()]), so every stored category has the
    four keys and [category.get('max_votes', 1)] reads the stored
    [max_votes]. *)
Module Category.
Record t := mk {
  id : string;
  title : string;
  max_votes : Z;
  participants : list Participant.t
}.
End Category.

Module VoteRequest.
Record t := mk { category_id : string; participant_id : string }.
End VoteRequest.

(** One element of the [votes] table, the dict built in [cast_vote]. *)
Module Vote.
Record t := mk {
  category_id : string;
  participant_id : string;
  ip_address : string;
  timestamp : string
}.
End Vote.

(** ** The JSON document store, [JsonDB] *)

Inductive Table := T_settings | T_categories | T_votes.

Inductive Access := Load (table : Table) | Save (table : Table).

Record HTTPException := mkHTTPException { status_code : Z; detail : string }.

(** The three backing files and what the store's environment decides.
    [None] is a file that does not exist or whose text is not JSON, the two
    conditions that [JsonDB.load] catches ([FileNotFoundError],
    [json.JSONDecodeError]); a file that cannot be opened or decoded, for
    which [load] lets the exception through, is not a state of this model.
    [can_write] tells for which tables a save goes through.  [accesses] is
    the log of the calls to [load] and [save], oldest first. *)
Record JsonDB := mkJsonDB {
  settings_file : option Settings.t;
  categories_file : option (list Category.t);
  votes_file : option (list Vote.t);
  can_write : Table -> bool;
  accesses : list Access
}.

Inductive Outcome (A : Type) :=
| Return (a : A)
| Raise (e : HTTPException).
Arguments Return {A} a.
Arguments Raise {A} e.

Definition Handler (A : Type) : Type := JsonDB -> Outcome A * JsonDB.

Definition ret {A} (a : A) : Handler A := fun db => (Return a, db).

Definition raise {A} (e : HTTPException) : Handler A := fun db => (Raise e, db).

Definition bind {A B} (m : Handler A) (k : A -> Handler B) : Handler B :=
  fun db =>
    match m db with
    | (Return a, db') => k a db'
    | (Raise e, db') => (Raise e, db')
    end.

Notation "'let*' x ':=' m 'in' k" := (bind m (fun x => k))
  (at level 10, x name, m at level 100, k at level 200, only parsing).
Notation "m ';;' k" := (bind m (fun _ => k))
  (at level 100, k at level 200, right associativity, only parsing).

Definition record_access (a : Access) (db : JsonDB) : JsonDB :=
  mkJsonDB (settings_file db) (categories_file db) (votes_file db)
           (can_write db) (accesses db ++ [a]).

(** [JsonDB._init_db]: a table whose file does not exist is seeded with its
    default document. *)
Definition fresh_db : JsonDB :=
  mkJsonDB (Some Settings.defaults) (Some []) (Some []) (fun _ => true) [].

(** The documents that [JsonDB.load] returns for the three tables: a file
    that does not exist or does not parse as JSON reads as the table's
    default. *)
Definition current_settings (db : JsonDB) : Settings.t :=
  default Settings.defaults (settings_file db).

Definition current_categories (db : JsonDB) : list Category.t :=
  default [] (categories_file db).

Definition current_votes (db : JsonDB) : list Vote.t :=
  default [] (votes_file db).

Arguments current_settings : simpl never.
Arguments current_categories : simpl never.
Arguments current_votes : simpl never.

(** [JsonDB.load], at each of the three tables. *)
Definition load_settings : Handler Settings.t := fun db =>
  (Return (current_settings db), record_access (Load T_settings) db).

Definition load_categories : Handler (list Category.t) := fun db =>
  (Return (current_categories db), record_access (Load T_categories) db).

Definition load_votes : Handler (list Vote.t) := fun db =>
  (Return (current_votes db), record_access (Load T_votes) db).

(** [JsonDB.save]: the whole document replaces the file.  A save that does
    not go through fails the request with status 500; of the ways it can
    fail the model has the one where [open(.., "w")] itself raises, which
    leaves the file as it was.  A failure after [open] has truncated the
    file is not modelled, so what is stated below about the files after a
    save is stated for saves that go through. *)
Definition save_error : HTTPException :=
  mkHTTPException 500%Z "Ошибка сохранения данных".

Definition save_settings (data : Settings.t) : Handler unit := fun db =>
  let db' := record_access (Save T_settings) db in
  if can_write db T_settings then
    (Return tt, mkJsonDB (Some data) (categories_file db') (votes_file db')
                         (can_write db') (accesses db'))
  else (Raise save_error, db').

Definition save_categories (data : list Category.t) : Handler unit := fun db =>
  let db' := record_access (Save T_categories) db in
  if can_write db T_categories then
    (Return tt, mkJsonDB (settings_file db') (Some data) (votes_file db')
                         (can_write db') (accesses db'))
  else (Raise save_error, db').

Definition save_votes (data : list Vote.t) : Handler unit := fun db =>
  let db' := record_access (Save T_votes) db in
  if can_write db T_votes then
    (Return tt, mkJsonDB (settings_file db') (categories_file db') (Some data)
                         (can_write db') (accesses db'))
  else (Raise save_error, db').

(** ** The identity resolver, [get_client_ip] *)

(** The part of a Starlette [Request] that the handlers read: the raw header
    list, names in lower case as the server delivers them, and
    [request.client.host]. *)
Record Request := mkRequest {
  headers : list (string * string);
  client_host : string
}.

Definition lower_char (c : ascii) : ascii :=
  let n := N_of_ascii c in
  if ((65 <=? n) && (n <=? 90))%N then ascii_of_N (n + 32) else c.

Fixpoint lower (s : string) : string :=
  match s with
  | EmptyString => EmptyString
  | String c r => String (lower_char c) (lower r)
  end.

(** [request.headers.get(key)]: the value of the first header whose name is
    the lower-cased [key], or [None]. *)
Definition headers_get (key : string) (hs : list (string * string))
  : option string :=
  snd <$> List.find (fun kv => bool_decide (fst kv = lower key)) hs.

(** [str.isspace] on the code points 0..255. *)
Definition isspace (c : ascii) : bool :=
  let n := N_of_ascii c in
  (((9 <=? n) && (n <=? 13)) || ((28 <=? n) && (n <=? 32))
   || (n =? 133) || (n =? 160))%N.

Fixpoint lstrip (s : string) : string :=
  match s with
  | EmptyString => EmptyString
  | String c r => if isspace c then lstrip r else s
  end.

Fixpoint rstrip (s : string) : string :=
  match s with
  | EmptyString => EmptyString
  | String c r =>
      match rstrip r with
      | EmptyString => if isspace c then EmptyString else String c EmptyString
      | r' => String c r'
      end
  end.

(** [s.strip()] *)
Definition strip (s : string) : string := rstrip (lstrip s).

(** [s.split(sep)] for a one-character separator. *)
Fixpoint split (sep : ascii) (s : string) : list string :=
  match s with
  | EmptyString => [EmptyString]
  | String c r =>
      if bool_decide (c = sep) then EmptyString :: split sep r
      else match split sep r with
           | h :: t => String c h :: t
           | [] => [String c EmptyString]
           end
  end.

(** Python truthiness of an [Optional[str]]. *)
Definition truthy (o : option string) : bool :=
  match o with
  | Some (String _ _) => true
  | _ => false
  end.

Definition get_client_ip (request : Request) : string :=
  let cf_ip := headers_get "CF-Connecting-IP" (headers request) in
  if truthy cf_ip then default "" cf_ip
  else
    let forwarded := headers_get "X-Forwarded-For" (headers request) in
    if truthy forwarded then
      strip (default "" (split "," (default "" forwarded) !! 0%nat))
    else client_host request.

(** ** Public endpoints *)

Record StatusMessage := mkStatusMessage { status : string; message : string }.

(** The body of [GET /api/results]: [{"visible": .., "message": ..}] or
    [{"visible": .., "data": ..}]; an absent key is [None]. *)
Record ResultsResponse := mkResultsResponse {
  visible : bool;
  results_message : option string;
  data : option (gmap string (gmap string nat))
}.

(** [GET /api/status] *)
Definition get_status : Handler Settings.t := load_settings.

(** [GET /api/categories] *)
Definition get_categories : Handler (list Category.t) := load_categories.

(** One turn of the loop of [get_my_votes]. *)
Definition my_votes_step (ip : string) (my_votes : gmap string (list string))
    (v : Vote.t) : gmap string (list string) :=
  if bool_decide (Vote.ip_address v = ip) then
    let cat_id := Vote.category_id v in
    let my_votes :=
      match my_votes !! cat_id with
      | None => <[cat_id := []]> my_votes
      | Some _ => my_votes
      end in
    alter (fun l => (l ++ [Vote.participant_id v])%list) cat_id my_votes
  else my_votes.

(** [GET /api/my-votes] *)
Definition get_my_votes (request : Request)
  : Handler (gmap string (list string)) :=
  let ip := get_client_ip request in
  let* votes := load_votes in
  ret (foldl (my_votes_step ip) ∅ votes).

(** [{p['id']: 0 for p in cat['participants']}] *)
Definition zero_counts (ps : list Participant.t) : gmap string nat :=
  foldl (fun m p => <[Participant.id p := 0%nat]> m) ∅ ps.

(** The first loop of [get_results]. *)
Definition init_results (categories : list Category.t)
  : gmap string (gmap string nat) :=
  foldl (fun rd cat =>
           <[Category.id cat := zero_counts (Category.participants cat)]> rd)
        ∅ categories.

(** One turn of the second loop of [get_results]. *)
Definition count_vote (results_data : gmap string (gmap string nat))
    (v : Vote.t) : gmap string (gmap string nat) :=
  let c_id := Vote.category_id v in
  let p_id := Vote.participant_id v in
  match results_data !! c_id with
  | Some counts =>
      match counts !! p_id with
      | Some n => <[c_id := <[p_id := S n]> counts]> results_data
      | None => results_data
      end
  | None => results_data
  end.

Definition tally (categories : list Category.t) (votes : list Vote.t)
  : gmap string (gmap string nat) :=
  foldl count_vote (init_results categories) votes.

Definition results_hidden_message : string :=
  "Результаты будут доступны после завершения голосования".

(** [GET /api/results] *)
Definition get_results : Handler ResultsResponse :=
  let* settings := load_settings in
  let* categories := load_categories in
  let* votes := load_votes in
  let results_data := tally categories votes in
  if Settings.is_voting_active settings then
    ret (mkResultsResponse false (Some results_hidden_message) None)
  else ret (mkResultsResponse true None (Some results_data)).

Definition voting_closed_error : HTTPException :=
  mkHTTPException 400%Z "Голосование в данный момент закрыто".

Definition category_not_found_error : HTTPException :=
  mkHTTPException 404%Z "Категория не найдена".

Definition quota_exceeded_error : HTTPException :=
  mkHTTPException 403%Z "Вы уже исчерпали лимит голосов в этой категории".

(** [next((c for c in categories if c['id'] == category_id), None)] *)
Definition find_category (category_id : string) (categories : list Category.t)
  : option Category.t :=
  List.find (fun c => bool_decide (Category.id c = category_id)) categories.

(** The votes of one identity in one category. *)
Definition votes_of (ip category_id : string) (votes : list Vote.t)
  : list Vote.t :=
  filter (fun v => Vote.ip_address v = ip ∧ Vote.category_id v = category_id)
         votes.

(** [POST /api/vote]; [utcnow] is [datetime.utcnow().isoformat()] as read
    when the request is served. *)
Definition cast_vote (utcnow : string) (vote_req : VoteRequest.t)
    (request : Request) : Handler StatusMessage :=
  let* settings := load_settings in
  if negb (Settings.is_voting_active settings) then raise voting_closed_error
  else
    let ip := get_client_ip request in
    let* votes := load_votes in
    (if Settings.anti_abuse_enabled settings then
       let user_cat_votes :=
         votes_of ip (VoteRequest.category_id vote_req) votes in
       let* categories := load_categories in
       match find_category (VoteRequest.category_id vote_req) categories with
       | None => raise category_not_found_error
       | Some category =>
           if (Z.of_nat (length user_cat_votes)
               >=? Category.max_votes category)%Z
           then raise quota_exceeded_error
           else ret tt
       end
     else ret tt) ;;
    let new_vote :=
      Vote.mk (VoteRequest.category_id vote_req)
              (VoteRequest.participant_id vote_req) ip utcnow in
    save_votes (votes ++ [new_vote])%list ;;
    ret (mkStatusMessage "success" "Ваш голос учтен").

Definition reset_closed_error : HTTPException :=
  mkHTTPException 400%Z "Голосование закрыто".

Definition category_id_required_error : HTTPException :=
  mkHTTPException 400%Z "category_id обязателен".

(** [POST /api/vote/reset] *)
Definition reset_my_vote (request : Request) (payload : gmap string string)
  : Handler StatusMessage :=
  let* settings := load_settings in
  if negb (Settings.is_voting_active settings) then raise reset_closed_error
  else
    let category_id := payload !! "category_id" in
    if negb (truthy category_id) then raise category_id_required_error
    else
      let category_id := default "" category_id in
      let ip := get_client_ip request in
      let* votes := load_votes in
      let initial_count := length votes in
      let new_votes :=
        filter (fun v => ¬ (Vote.ip_address v = ip
                            ∧ Vote.category_id v = category_id)) votes in
      if (length new_votes =? initial_count)%nat then
        ret (mkStatusMessage "skipped" "Голосов для удаления не найдено")
      else
        save_votes new_votes ;;
        ret (mkStatusMessage "success" "Голоса сброшены").

(** ** Admin endpoints *)

Record AdminData := mkAdminData {
  admin_settings : Settings.t;
  admin_categories : list Category.t;
  admin_votes : list Vote.t
}.

Record SettingsUpdated := mkSettingsUpdated {
  updated_status : string;
  updated_data : Settings.t
}.

Definition unauthorized_error : HTTPException :=
  mkHTTPException 401%Z "Доступ запрещен: неверный токен".

(** [os.getenv("SECRET_KEY", "supersecretkey")] when the variable is unset. *)
Definition default_SECRET_KEY : string := "supersecretkey".

Section Admin.

Variable SECRET_KEY : string.

(** The dependency of every admin route; [x_admin_token] is the value of
    the [X-Admin-Token] header, [None] when the header is absent. *)
Definition verify_admin (x_admin_token : option string) : Handler unit :=
  if bool_decide (x_admin_token ≠ Some SECRET_KEY)
  then raise unauthorized_error
  else ret tt.

(** [GET /api/admin/data] behind [Depends(verify_admin)] *)
Definition get_admin_data (x_admin_token : option string)
  : Handler AdminData :=
  verify_admin x_admin_token ;;
  let* s := load_settings in
  let* c := load_categories in
  let* v := load_votes in
  ret (mkAdminData s c v).

(** [POST /api/admin/settings] behind [Depends(verify_admin)] *)
Definition update_settings (x_admin_token : option string)
    (settings : Settings.t) : Handler SettingsUpdated :=
  verify_admin x_admin_token ;;
  save_settings settings ;;
  ret (mkSettingsUpdated "updated" settings).

(** [POST /api/admin/categories] behind [Depends(verify_admin)] *)
Definition update_categories (x_admin_token : option string)
    (categories : list Category.t) : Handler string :=
  verify_admin x_admin_token ;;
  save_categories categories ;;
  ret "updated".

(** ** Sequential executions *)

(** One request to the API, with everything the handler reads from it. *)
Inductive Call :=
| GetStatus
| GetCategories
| GetMyVotes (request : Request)
| GetResults
| PostVote (utcnow : string) (vote_req : VoteRequest.t) (request : Request)
| PostVoteReset (request : Request) (payload : gmap string string)
| GetAdminData (x_admin_token : option string)
| PostAdminSettings (x_admin_token : option string) (settings : Settings.t)
| PostAdminCategories (x_admin_token : option string)
                      (categories : list Category.t).

(** The store after one request has been served to completion. *)
Definition serve (db : JsonDB) (c : Call) : JsonDB :=
  match c with
  | GetStatus => snd (get_status db)
  | GetCategories => snd (get_categories db)
  | GetMyVotes request => snd (get_my_votes request db)
  | GetResults => snd (get_results db)
  | PostVote utcnow vote_req request =>
      snd (cast_vote utcnow vote_req request db)
  | PostVoteReset request payload => snd (reset_my_vote request payload db)
  | GetAdminData tok => snd (get_admin_data tok db)
  | PostAdminSettings tok settings => snd (update_settings tok settings db)
  | PostAdminCategories tok categories =>
      snd (update_categories tok categories db)
  end.

(** Requests served one after the other, none overlapping another. *)
Definition serve_all (db : JsonDB) (calls : list Call) : JsonDB :=
  foldl serve db calls.

End Admin.

(** ** What a request sees of the store *)

(** The accesses that a handler run from [db] to [db'] has added to the log. *)
Definition new_accesses (db db' : JsonDB) (log : list Access) : Prop :=
  accesses db' = (accesses db ++ log)%list.

(** The three backing files hold the same documents in [db] and [db']. *)
Definition same_files (db db' : JsonDB) : Prop :=
  settings_file db' = settings_file db
  ∧ categories_file db' = categories_file db
  ∧ votes_file db' = votes_file db.

(** ** Concrete stores and requests used by the examples below *)

Definition peer (ip : string) : Request := mkRequest [] ip.

Definition open_settings (anti_abuse : bool) : Settings.t :=
  Settings.mk "Городская Премия 2025" true anti_abuse
              HeaderSettings.defaults FooterSettings.defaults.

Definition cafe_a : Participant.t := Participant.mk "a" "Cafe A" None None.
Definition cafe_b : Participant.t := Participant.mk "b" "Cafe B" None None.

Definition best_cafe (max_votes : Z) : Category.t :=
  Category.mk "best-cafe" "Best cafe" max_votes [cafe_a; cafe_b].

(** A store with voting open, one category and the given ledger. *)
Definition open_db (anti_abuse : bool) (max_votes : Z) (votes : list Vote.t)
  : JsonDB :=
  mkJsonDB (Some (open_settings anti_abuse)) (Some [best_cafe max_votes])
           (Some votes) (fun _ => true) [].

(** A handler that rejects its request without having touched the store. *)
Definition rejected_before_store_access {A} (h : Handler A) (db : JsonDB)
  : Prop :=
  (∃ e, fst (h db) = Raise e) ∧ accesses (snd (h db)) = accesses db.

(** The vote that [cast_vote] builds for a request. *)
Definition new_vote (utcnow : string) (vote_req : VoteRequest.t)
    (request : Request) : Vote.t :=
  Vote.mk (VoteRequest.category_id vote_req)
          (VoteRequest.participant_id vote_req)
          (get_client_ip request) utcnow.

Definition vote_accepted : StatusMessage :=
  mkStatusMessage "success" "Ваш голос учтен".

(** *** Words of the identity-resolution contract *)

(** Every character of [s] is white space. *)
Fixpoint all_space (s : string) : bool :=
  match s with
  | EmptyString => true
  | String c r => isspace c && all_space r
  end.

Definition starts_with_space (s : string) : bool :=
  match s with
  | EmptyString => false
  | String c _ => isspace c
  end.

Fixpoint ends_with_space (s : string) : bool :=
  match s with
  | EmptyString => false
  | String c EmptyString => isspace c
  | String _ r => ends_with_space r
  end.

Fixpoint has_char (sep : ascii) (s : string) : bool :=
  match s with
  | EmptyString => false
  | String c r => bool_decide (c = sep) || has_char sep r
  end.

(** [t] is [e] with its surrounding white space removed. *)
Definition trimmed_of (e t : string) : Prop :=
  ∃ l r, e = String.append l (String.append t r)
         ∧ all_space l = true ∧ all_space r = true
         ∧ starts_with_space t = false ∧ ends_with_space t = false.

(** [e] is the first of the entries of [f] that [sep] separates. *)
Definition first_entry_of (sep : ascii) (f e : string) : Prop :=
  has_char sep e = false
  ∧ (f = e ∨ ∃ rest, f = String.append e (String sep rest)).

(** *** Words of the reset contract *)

Definition reset_skipped : StatusMessage :=
  mkStatusMessage "skipped" "Голосов для удаления не найдено".

Definition reset_applied : StatusMessage :=
  mkStatusMessage "success" "Голоса сброшены".

(** The body [{"category_id": category_id}] of a reset request. *)
Definition reset_payload (category_id : string) : gmap string string :=
  {[ "category_id" := category_id ]}.

(** The reset contract at one request: the ledger afterwards is the ledger
    before without the records of this identity in this category, and a
    reset that matches nothing answers "skipped". *)
Definition reset_exact (request : Request) (category_id : string)
    (db : JsonDB) : Prop :=
  let ip := get_client_ip request in
  let out := reset_my_vote request (reset_payload category_id) db in
  current_votes (snd out)
    = filter (fun v => ¬ (Vote.ip_address v = ip
                          ∧ Vote.category_id v = category_id))
             (current_votes db)
  ∧ (votes_of ip category_id (current_votes db) = []
     → fst out = Return reset_skipped).

(** A category whose id is the empty string, which the [Category] model
    accepts. *)
Definition unnamed_category : Category.t :=
  Category.mk "" "Unnamed" 2 [cafe_a; cafe_b].

(** The store after the administrator has set up that category and opened
    voting, and the identity 1.2.3.1 has voted in it. *)
Definition db_with_unnamed_category_vote : JsonDB :=
  serve_all default_SECRET_KEY fresh_db
    [PostAdminCategories (Some default_SECRET_KEY) [unnamed_category];
     PostAdminSettings (Some default_SECRET_KEY) (open_settings true);
     PostVote "2026-01-01T00:00:00" (VoteRequest.mk "" "a") (peer "1.2.3.1")].

(** *** Words of the tally contract *)

Definition participant_ids (c : Category.t) : list string :=
  Participant.id <$> Category.participants c.

Definition category_ids (categories : list Category.t) : list string :=
  Category.id <$> categories.

(** The number of vote records that reference a (category, participant)
    pair. *)
Definition votes_for (c_id p_id : string) (votes : list Vote.t) : nat :=
  length (filter (fun v => Vote.category_id v = c_id
                           ∧ Vote.participant_id v = p_id) votes).

(** [results_data[c_id][p_id]], when both keys are there. *)
Definition count_of (results_data : gmap string (gmap string nat))
    (c_id p_id : string) : option nat :=
  results_data !! c_id ≫= (fun counts => counts !! p_id).

(** The participants that one identity has voted for in one category, in
    the order of the ledger. *)
Definition my_participants (ip category_id : string) (votes : list Vote.t)
  : list string :=
  Vote.participant_id <$> votes_of ip category_id votes.

(** The tally example of the design document. *)
Definition p1 : Participant.t := Participant.mk "p1" "First" None None.
Definition p2 : Participant.t := Participant.mk "p2" "Second" None None.

Definition c1 : Category.t := Category.mk "c1" "Category" 1 [p1; p2].

Definition example_votes : list Vote.t :=
  [Vote.mk "c1" "p1" "ipA" "2026-01-01T00:00:01";
   Vote.mk "c1" "p2" "ipB" "2026-01-01T00:00:02";
   Vote.mk "c1" "p1" "ipC" "2026-01-01T00:00:03"].

Definition example_db : JsonDB :=
  mkJsonDB (Some Settings.defaults) (Some [c1]) (Some example_votes)
           (fun _ => true) [].

(** *** Words of the quota contract *)

(** The number of persisted votes of an identity in a category. *)
Definition votes_cast (ip category_id : string) (db : JsonDB) : Z :=
  Z.of_nat (length (votes_of ip category_id (current_votes db))).

(** The quota invariant as the design document words it: when anti-abuse is
    enabled, no identity has more votes in a category than the category's
    [max_votes]. *)
Definition quota_invariant (db : JsonDB) : Prop :=
  Settings.anti_abuse_enabled (current_settings db) = true →
  ∀ ip c, c ∈ current_categories db →
          (votes_cast ip (Category.id c) db <= Category.max_votes c)%Z.

(** The bound that [cast_vote] checks: the votes of an identity in a
    category against the [max_votes] of the category that the lookup by id
    finds. *)
Definition fits_quota (categories : list Category.t) (votes : list Vote.t)
  : Prop :=
  ∀ ip category_id category,
    find_category category_id categories = Some category →
    (Z.of_nat (length (votes_of ip category_id votes))
     <= Category.max_votes category)%Z.

Definition within_quota (db : JsonDB) : Prop :=
  fits_quota (current_categories db) (current_votes db).

(** A request that leaves the quota in force when served from [db]: any
    request but an authorized settings update that disables anti-abuse and
    an authorized replacement of the categories by a table that the ledger
    already exceeds. *)
Definition keeps_quota_config (SECRET_KEY : string) (db : JsonDB) (c : Call)
  : Prop :=
  match c with
  | PostAdminSettings x_admin_token settings =>
      x_admin_token = Some SECRET_KEY →
      Settings.anti_abuse_enabled settings = true
  | PostAdminCategories x_admin_token categories =>
      x_admin_token = Some SECRET_KEY →
      fits_quota categories (current_votes db)
  | _ => True
  end.

(** An execution all of whose requests leave the quota in force. *)
Fixpoint quota_in_force (SECRET_KEY : string) (db : JsonDB)
    (calls : list Call) : Prop :=
  match calls with
  | [] => True
  | c :: calls =>
      keeps_quota_config SECRET_KEY db c
      ∧ quota_in_force SECRET_KEY (serve SECRET_KEY db c) calls
  end.

(** The administrator sets up one category with [max_votes = 1], opens
    voting with anti-abuse disabled, the identity 1.2.3.1 votes twice, and
    the administrator enables anti-abuse. *)
Definition toggled_execution : list Call :=
  [PostAdminCategories (Some default_SECRET_KEY) [best_cafe 1];
   PostAdminSettings (Some default_SECRET_KEY) (open_settings false);
   PostVote "2026-01-01T00:00:01" (VoteRequest.mk "best-cafe" "a")
            (peer "1.2.3.1");
   PostVote "2026-01-01T00:00:02" (VoteRequest.mk "best-cafe" "b")
            (peer "1.2.3.1");
   PostAdminSettings (Some default_SECRET_KEY) (open_settings true)].

(** The administrator sets up one category with [max_votes = 2] and opens
    voting with anti-abuse enabled, the identity 1.2.3.1 votes twice, and
    the administrator replaces the category by one with [max_votes = 1]. *)
Definition lowered_execution : list Call :=
  [PostAdminCategories (Some default_SECRET_KEY) [best_cafe 2];
   PostAdminSettings (Some default_SECRET_KEY) (open_settings true);
   PostVote "2026-01-01T00:00:01" (VoteRequest.mk "best-cafe" "a")
            (peer "1.2.3.1");
   PostVote "2026-01-01T00:00:02" (VoteRequest.mk "best-cafe" "b")
            (peer "1.2.3.1");
   PostAdminCategories (Some default_SECRET_KEY) [best_cafe 1]].

(** The scenario of the design document, from the first boot: the
    administrator sets up the category best-cafe with [max_votes = 2] and
    opens voting; the identity 1.2.3.1 votes twice, tries a third time,
    resets and votes once more. *)
Definition cafe_execution : list Call :=
  [PostAdminCategories (Some default_SECRET_KEY) [best_cafe 2];
   PostAdminSettings (Some default_SECRET_KEY) (open_settings true);
   PostVote "2026-01-01T00:00:01" (VoteRequest.mk "best-cafe" "a")
            (peer "1.2.3.1");
   PostVote "2026-01-01T00:00:02" (VoteRequest.mk "best-cafe" "b")
            (peer "1.2.3.1");
   PostVote "2026-01-01T00:00:03" (VoteRequest.mk "best-cafe" "a")
            (peer "1.2.3.1");
   PostVoteReset (peer "1.2.3.1") (reset_payload "best-cafe");
   PostVote "2026-01-01T00:00:04" (VoteRequest.mk "best-cafe" "b")
            (peer "1.2.3.1")].

(** ** The rest of the API: login and start-up *)

Module AdminLogin.
Record t := mk { password : string }.
End AdminLogin.

Definition wrong_password_error : HTTPException :=
  mkHTTPException 401%Z "Неверный пароль администратора".

Section Login.

(** [hashlib.sha256(s.encode()).hexdigest()], the digest of the standard
    library, and the two values read from the environment. *)
Variable sha256_hexdigest : string -> string.
Variable ADMIN_PASSWORD_HASH : string.
Variable SECRET_KEY : string.

(** [POST /api/admin/login]; the answer [{"token": ..}] is its token. *)
Definition admin_login (login : AdminLogin.t) : Handler string :=
  if bool_decide (sha256_hexdigest (AdminLogin.password login)
                  = ADMIN_PASSWORD_HASH)
  then ret SECRET_KEY
  else raise wrong_password_error.

End Login.

Definition PREFERRED_PORTS : list Z := [55000; 55001; 55002]%Z.

Definition FRONTEND_PORT : Z := 55005%Z.

(** The loop [for p in PREFERRED_PORTS: if not is_port_in_use(p): ..; break]
    over the ports left, [port_to_use] being the value the variable has when
    the loop ends without a [break]. *)
Fixpoint first_free_port (is_port_in_use : Z -> bool) (ports : list Z)
    (port_to_use : Z) : Z :=
  match ports with
  | [] => port_to_use
  | p :: ports =>
      if negb (is_port_in_use p) then p
      else first_free_port is_port_in_use ports port_to_use
  end.

(** The port that the start-up block passes to [uvicorn.run];
    [is_port_in_use] is the answer of the socket probe for each port. *)
Definition select_port (is_port_in_use : Z -> bool) : Z :=
  first_free_port is_port_in_use PREFERRED_PORTS
                  (default 0%Z (PREFERRED_PORTS !! 0%nat)).

(** *** Words for executions *)

(** A request that does not carry the admin secret. *)
Definition unprivileged (SECRET_KEY : string) (c : Call) : Prop :=
  match c with
  | GetAdminData x_admin_token
  | PostAdminSettings x_admin_token _
  | PostAdminCategories x_admin_token _ => x_admin_token ≠ Some SECRET_KEY
  | _ => True
  end.

(** A request to one of the [GET] routes. *)
Definition read_only (c : Call) : Prop :=
  match c with
  | GetStatus | GetCategories | GetMyVotes _ | GetResults | GetAdminData _ =>
      True
  | _ => False
  end.

(** The call [POST /api/vote] for a clock reading, a body and a request, and
    the vote it asks for. *)
Definition post_vote (r : string * VoteRequest.t * Request) : Call :=
  PostVote (fst (fst r)) (snd (fst r)) (snd r).

Definition vote_of (r : string * VoteRequest.t * Request) : Vote.t :=
  new_vote (fst (fst r)) (snd (fst r)) (snd r).

(** A stand-in digest for examples: it knows the digest of one password. *)
Definition example_digest (s : string) : string :=
  if bool_decide (s = "123456")
  then "8d969eef6ecad3c29a3a629280e686cf0c3f5d5a86aff3ca12020c923adc6c92"
  else "".

(** A load leaves the documents as they are. *)
Ltac forget_loads :=
  repeat match goal with
    | |- context [current_settings (record_access ?a ?db)] =>
        change (current_settings (record_access a db))
          with (current_settings db)
    | |- context [current_categories (record_access ?a ?db)] =>
        change (current_categories (record_access a db))
          with (current_categories db)
    | |- context [current_votes (record_access ?a ?db)] =>
        change (current_votes (record_access a db)) with (current_votes db)
    end.

(** Unfolds a handler down to the store it returns. *)
Ltac run_handler :=
  unfold cast_vote, reset_my_vote, get_results, get_my_votes, get_admin_data,
    update_settings, update_categories, verify_admin, get_status,
    get_categories, bind, ret, raise, load_settings, load_categories,
    load_votes, save_settings, save_categories, save_votes;
  simpl; forget_loads.

(** ** Results *)

Section Handlers.

Implicit Types (db : JsonDB) (request : Request).

Lemma record_access_files db a : same_files db (record_access a db).
Proof. by unfold same_files. Qed.

(** C3. Casting a vote while [is_voting_active] is false fails with the
    closed-voting error (status 400), whatever the category, participant
    and identity: the only store access is the load of the settings, no
    table is saved and the three files are as they were. *)
Theorem cast_vote_closed utcnow vote_req request db :
  Settings.is_voting_active (current_settings db) = false →
  let out := cast_vote utcnow vote_req request db in
  fst out = Raise voting_closed_error
  ∧ status_code voting_closed_error = 400%Z
  ∧ same_files db (snd out)
  ∧ new_accesses db (snd out) [Load T_settings].
Proof.
  intros Hclosed. unfold cast_vote, bind, load_settings; simpl.
  rewrite Hclosed; simpl.
  repeat split.
Qed.

Lemma cast_vote_closed_witness :
  let out := cast_vote "2026-01-01T00:00:00" (VoteRequest.mk "best-cafe" "a")
                       (peer "1.2.3.1") fresh_db in
  fst out = Raise voting_closed_error
  ∧ status_code voting_closed_error = 400%Z
  ∧ same_files fresh_db (snd out)
  ∧ new_accesses fresh_db (snd out) [Load T_settings].
Proof. apply cast_vote_closed. reflexivity. Defined.

(** C9. Every privileged operation (admin data read, settings update,
    categories replacement) fails with the unauthorized error (status 401),
    leaving the store untouched, whenever the admin header is absent or
    differs from the shared secret, whatever the request body; the gate lets
    a request through exactly when the header equals the secret. *)
Theorem admin_authorization (SECRET_KEY : string)
    (x_admin_token : option string) (settings : Settings.t)
    (categories : list Category.t) db :
  (x_admin_token ≠ Some SECRET_KEY →
     get_admin_data SECRET_KEY x_admin_token db = (Raise unauthorized_error, db)
     ∧ update_settings SECRET_KEY x_admin_token settings db
       = (Raise unauthorized_error, db)
     ∧ update_categories SECRET_KEY x_admin_token categories db
       = (Raise unauthorized_error, db))
  ∧ (x_admin_token = Some SECRET_KEY →
     fst (get_admin_data SECRET_KEY x_admin_token db)
       = Return (mkAdminData (current_settings db) (current_categories db)
                             (current_votes db))
     ∧ fst (update_settings SECRET_KEY x_admin_token settings db)
       = (if can_write db T_settings
          then Return (mkSettingsUpdated "updated" settings)
          else Raise save_error)
     ∧ fst (update_categories SECRET_KEY x_admin_token categories db)
       = (if can_write db T_categories then Return "updated"
          else Raise save_error))
  ∧ (verify_admin SECRET_KEY x_admin_token db = (Return tt, db)
     ↔ x_admin_token = Some SECRET_KEY)
  ∧ status_code unauthorized_error = 401%Z
  ∧ save_error ≠ unauthorized_error.
Proof.
  split; [|split; [|split; [|split]]].
  - intros Hne. run_handler. by rewrite bool_decide_eq_true_2.
  - intros ->. run_handler. rewrite bool_decide_eq_false_2 by auto. simpl.
    repeat split.
    + by destruct (can_write db T_settings).
    + by destruct (can_write db T_categories).
  - run_handler. case_bool_decide as Hd; split; try done;
      intros _; by apply dec_stable.
  - reflexivity.
  - discriminate.
Qed.

Lemma admin_authorization_witness :
  (get_admin_data default_SECRET_KEY None fresh_db
     = (Raise unauthorized_error, fresh_db)
   ∧ update_settings default_SECRET_KEY None (open_settings false) fresh_db
     = (Raise unauthorized_error, fresh_db)
   ∧ update_categories default_SECRET_KEY None [best_cafe 2] fresh_db
     = (Raise unauthorized_error, fresh_db))
  ∧ fst (update_settings default_SECRET_KEY (Some "supersecretkey")
                         (open_settings false) fresh_db)
    = Return (mkSettingsUpdated "updated" (open_settings false)).
Proof.
  split.
  - apply (admin_authorization default_SECRET_KEY None (open_settings false)
             [best_cafe 2] fresh_db).
    discriminate.
  - apply (admin_authorization default_SECRET_KEY (Some "supersecretkey")
             (open_settings false) [best_cafe 2] fresh_db).
    reflexivity.
Defined.

(** C8, as the code has it. A vote-reset request whose body has no
    [category_id], or an empty one, is rejected with status 400 after one
    store access, the load of the settings: with the closed-voting error when
    voting is not active, with the [category_id]-required error otherwise.
    No table is saved and the votes table is not loaded. *)
Theorem reset_my_vote_missing_category_id request
    (payload : gmap string string) db :
  truthy (payload !! "category_id") = false →
  let out := reset_my_vote request payload db in
  fst out = Raise (if Settings.is_voting_active (current_settings db)
                   then category_id_required_error else reset_closed_error)
  ∧ status_code category_id_required_error = 400%Z
  ∧ status_code reset_closed_error = 400%Z
  ∧ same_files db (snd out)
  ∧ new_accesses db (snd out) [Load T_settings].
Proof.
  intros Hmissing. run_handler.
  destruct (Settings.is_voting_active (current_settings db)); simpl.
  - rewrite Hmissing. simpl. repeat split.
  - repeat split.
Qed.

Lemma reset_my_vote_missing_category_id_witness :
  let out := reset_my_vote (peer "1.2.3.1") ∅ (open_db true 2 []) in
  fst out = Raise category_id_required_error
  ∧ status_code category_id_required_error = 400%Z
  ∧ status_code reset_closed_error = 400%Z
  ∧ same_files (open_db true 2 []) (snd out)
  ∧ new_accesses (open_db true 2 []) (snd out) [Load T_settings].
Proof.
  apply (reset_my_vote_missing_category_id (peer "1.2.3.1") ∅
           (open_db true 2 [])).
  reflexivity.
Defined.

(** C8, as stated, fails: a vote-reset request with an empty body, made
    while voting is open, has loaded the settings table by the time it is
    rejected. *)
Lemma reset_my_vote_loads_before_validating :
  ¬ rejected_before_store_access (reset_my_vote (peer "1.2.3.1") ∅)
                                 (open_db true 2 []).
Proof. intros [_ Hlog]. vm_compute in Hlog. discriminate. Qed.

(** A cast made while voting is active whose [category_id] names no category
    of the table: with anti-abuse enabled it fails with the not-found error
    and the ledger is not touched; with anti-abuse disabled the categories
    table is not read and, the votes table being writable, the vote is
    accepted and appended. *)
Lemma cast_vote_category_lookup utcnow vote_req request db :
  Settings.is_voting_active (current_settings db) = true →
  find_category (VoteRequest.category_id vote_req) (current_categories db)
    = None →
  let out := cast_vote utcnow vote_req request db in
  (Settings.anti_abuse_enabled (current_settings db) = true →
     fst out = Raise category_not_found_error
     ∧ same_files db (snd out)
     ∧ new_accesses db (snd out)
                    [Load T_settings; Load T_votes; Load T_categories])
  ∧ (Settings.anti_abuse_enabled (current_settings db) = false →
     can_write db T_votes = true →
     fst out = Return vote_accepted
     ∧ votes_file (snd out)
       = Some (current_votes db ++ [new_vote utcnow vote_req request])%list
     ∧ new_accesses db (snd out) [Load T_settings; Load T_votes; Save T_votes]).
Proof.
  intros Hopen Hfind. run_handler. rewrite Hopen. simpl. split.
  - intros ->. simpl. forget_loads. rewrite Hfind. simpl.
    unfold new_accesses. simpl. rewrite <- !app_assoc. by repeat split.
  - intros -> Hwrite. simpl. rewrite Hwrite. simpl.
    unfold new_accesses. simpl. rewrite <- !app_assoc. by repeat split.
Qed.

(** C2, at the failing input. Voting is active, anti-abuse is disabled and
    the table has no category "no-such-category": the vote for it is
    accepted and persisted, where the claim asks for the not-found error and
    an unchanged ledger.  With anti-abuse enabled the same request is
    refused with the not-found error (status 404) and nothing is
    appended. *)
Theorem cast_vote_unknown_category_accepted :
  let vote_req := VoteRequest.mk "no-such-category" "a" in
  let request := peer "1.2.3.1" in
  let utcnow := "2026-01-01T00:00:00" in
  Settings.is_voting_active (current_settings (open_db false 2 [])) = true
  ∧ find_category "no-such-category" (current_categories (open_db false 2 []))
    = None
  ∧ fst (cast_vote utcnow vote_req request (open_db false 2 []))
    = Return vote_accepted
  ∧ votes_file (snd (cast_vote utcnow vote_req request (open_db false 2 [])))
    = Some [Vote.mk "no-such-category" "a" "1.2.3.1" utcnow]
  ∧ fst (cast_vote utcnow vote_req request (open_db true 2 []))
    = Raise category_not_found_error
  ∧ status_code category_not_found_error = 404%Z
  ∧ votes_file (snd (cast_vote utcnow vote_req request (open_db true 2 [])))
    = Some [].
Proof. vm_compute. repeat split. Qed.

(** *** Identity resolution *)

Lemma append_String (c : ascii) (s t : string) :
  String.append (String c s) t = String c (String.append s t).
Proof. reflexivity. Qed.

Lemma append_empty (t : string) : String.append EmptyString t = t.
Proof. reflexivity. Qed.

Lemma split_first (sep : ascii) (s : string) :
  ∃ h t, split sep s = h :: t ∧ first_entry_of sep s h.
Proof.
  induction s as [|c s (h & t & Hsplit & Hno & Hshape)]; simpl.
  - exists EmptyString, []. repeat split. by left.
  - case_bool_decide as Hc.
    + subst c. exists EmptyString, (split sep s). repeat split.
      right. by exists s.
    + rewrite Hsplit. exists (String c h), t. repeat split.
      * simpl. rewrite Hno. by rewrite bool_decide_eq_false_2.
      * destruct Hshape as [Hs|[rest Hs]]; [left|right; exists rest];
          by rewrite ?append_String, <- Hs.
Qed.

Lemma lstrip_spec (s : string) :
  ∃ l, s = String.append l (lstrip s) ∧ all_space l = true
       ∧ starts_with_space (lstrip s) = false.
Proof.
  induction s as [|c s (l & Hs & Hl & Hstart)]; simpl.
  - by exists EmptyString.
  - destruct (isspace c) eqn:Hc.
    + exists (String c l). rewrite append_String, <- Hs. simpl.
      by rewrite Hc, Hl.
    + exists EmptyString. simpl. by rewrite Hc.
Qed.

Lemma rstrip_spec (s : string) :
  ∃ r, s = String.append (rstrip s) r ∧ all_space r = true
       ∧ ends_with_space (rstrip s) = false
       ∧ (starts_with_space s = false → starts_with_space (rstrip s) = false).
Proof.
  induction s as [|c s (r & Hs & Hr & Hend & _)]; simpl.
  - by exists EmptyString.
  - destruct (rstrip s) as [|c' s'] eqn:Hrs.
    + rewrite append_empty in Hs. subst r.
      destruct (isspace c) eqn:Hc.
      * exists (String c s). rewrite append_empty. simpl. by rewrite Hc, Hr.
      * exists s. rewrite append_String, append_empty. simpl. by rewrite Hc.
    + exists r. rewrite append_String, <- Hs. repeat split; try done.
Qed.

Lemma strip_spec (s : string) : trimmed_of s (strip s).
Proof.
  destruct (lstrip_spec s) as (l & Hs & Hl & Hstart).
  destruct (rstrip_spec (lstrip s)) as (r & Hls & Hr & Hend & Hkeep).
  exists l, r. unfold strip. rewrite <- Hls. repeat split; auto.
Qed.

(** C7. The resolved identity is the [CF-Connecting-IP] header when it is
    present and not empty; otherwise, when [X-Forwarded-For] is present and
    not empty, the first comma-separated entry of that header with its
    surrounding white space removed; otherwise the peer address of the
    connection. *)
Theorem get_client_ip_precedence request :
  match headers_get "CF-Connecting-IP" (headers request) with
  | Some (String c r) => get_client_ip request = String c r
  | _ =>
      match headers_get "X-Forwarded-For" (headers request) with
      | Some (String c r) =>
          ∃ entry, first_entry_of "," (String c r) entry
                   ∧ trimmed_of entry (get_client_ip request)
      | _ => get_client_ip request = client_host request
      end
  end.
Proof.
  unfold get_client_ip.
  destruct (headers_get "CF-Connecting-IP" (headers request)) as [[|c r]|];
    simpl; try reflexivity;
    destruct (headers_get "X-Forwarded-For" (headers request)) as [[|c' r']|];
    simpl; try reflexivity.
  all: destruct (split_first "," (String c' r')) as (h & t & Hsplit & Hfirst).
  all: simpl in Hsplit; rewrite Hsplit; simpl.
  all: exists h; split; [exact Hfirst | apply strip_spec].
Qed.

(** *** Reset *)

Section Ledger.

Variables ip category_id : string.

Let mine (v : Vote.t) : Prop :=
  Vote.ip_address v = ip ∧ Vote.category_id v = category_id.

Lemma filter_length_eq {A} (P : A → Prop) `{!∀ x, Decision (P x)}
    (l : list A) :
  length (filter P l) = length l → filter P l = l.
Proof.
  induction l as [|x l IH]; [done|].
  rewrite filter_cons. case_decide; simpl; intros Hlen.
  - f_equal. apply IH. lia.
  - pose proof (length_filter P l). lia.
Qed.

Lemma votes_of_nil_keep_all (votes : list Vote.t) :
  votes_of ip category_id votes = []
  ↔ filter (fun v => ¬ mine v) votes = votes.
Proof.
  unfold votes_of. fold mine.
  induction votes as [|v votes IH]; [done|].
  rewrite !filter_cons. destruct (decide (mine v)) as [Hv|Hv].
  - rewrite decide_False by tauto. split; [done|].
    intros Heq. pose proof (length_filter (fun v => ¬ mine v) votes) as Hle.
    rewrite Heq in Hle. simpl in Hle. lia.
  - rewrite decide_True by done. rewrite IH. split; [by intros ->|].
    by intros [= ->].
Qed.

Lemma votes_of_others_removed (votes : list Vote.t) :
  votes_of ip category_id (filter (fun v => ¬ mine v) votes) = [].
Proof.
  unfold votes_of. fold mine. rewrite list_filter_filter.
  induction votes as [|v votes IH]; [done|].
  rewrite filter_cons_False by tauto. done.
Qed.

Lemma votes_of_others_kept (ip' category_id' : string) (votes : list Vote.t) :
  ¬ (ip' = ip ∧ category_id' = category_id) →
  votes_of ip' category_id' (filter (fun v => ¬ mine v) votes)
  = votes_of ip' category_id' votes.
Proof.
  intros Hother. unfold votes_of. rewrite list_filter_filter.
  apply list_filter_iff. intros v. unfold mine. split; [tauto|].
  intros [<- <-]. tauto.
Qed.

End Ledger.

(** C6, as the code has it. While voting is active, a reset for an identity
    and a non-empty [category_id] answers "skipped" and leaves the ledger
    alone when that identity has no vote in that category; otherwise, the
    votes table being writable, it answers "success" and the ledger saved
    has none of the identity's votes in that category, has the votes of
    every other identity and of every other category exactly as before, in
    the same order, and has no record that was not there. *)
Theorem reset_my_vote_exact request (payload : gmap string string)
    (category_id : string) db :
  Settings.is_voting_active (current_settings db) = true →
  payload !! "category_id" = Some category_id →
  category_id ≠ "" →
  let ip := get_client_ip request in
  let out := reset_my_vote request payload db in
  let votes := current_votes db in
  let votes' := current_votes (snd out) in
  (votes_of ip category_id votes = [] →
     fst out = Return reset_skipped ∧ same_files db (snd out)
     ∧ new_accesses db (snd out) [Load T_settings; Load T_votes])
  ∧ (votes_of ip category_id votes ≠ [] → can_write db T_votes = true →
     fst out = Return reset_applied
     ∧ settings_file (snd out) = settings_file db
     ∧ categories_file (snd out) = categories_file db
     ∧ new_accesses db (snd out) [Load T_settings; Load T_votes; Save T_votes]
     ∧ votes_of ip category_id votes' = []
     ∧ (∀ ip' category_id',
          ¬ (ip' = ip ∧ category_id' = category_id) →
          votes_of ip' category_id' votes' = votes_of ip' category_id' votes)
     ∧ votes' `sublist_of` votes).
Proof.
  intros Hopen Hpayload Hcid. destruct category_id as [|c r]; [done|].
  run_handler. rewrite Hopen, Hpayload. simpl. forget_loads.
  set (ip := get_client_ip request). set (cid := String c r).
  set (keep := filter (fun v => ¬ (Vote.ip_address v = ip
                                    ∧ Vote.category_id v = cid))
                      (current_votes db)).
  split.
  - intros Hnone. apply votes_of_nil_keep_all in Hnone.
    fold keep in Hnone. rewrite Hnone, Nat.eqb_refl. simpl.
    unfold new_accesses; simpl. rewrite <- app_assoc. by repeat split.
  - intros Hsome Hwrite.
    destruct (length keep =? length (current_votes db))%nat eqn:Hlen.
    + apply Nat.eqb_eq, filter_length_eq in Hlen.
      by apply votes_of_nil_keep_all in Hlen.
    + simpl. rewrite Hwrite. simpl. unfold new_accesses; simpl.
      rewrite <- !app_assoc. repeat split.
      * apply votes_of_others_removed.
      * intros ip' cid' Hother. by apply votes_of_others_kept.
      * apply sublist_filter.
Qed.

Lemma reset_my_vote_exact_witness :
  let votes :=
    [Vote.mk "best-cafe" "a" "1.2.3.1" "t1"; Vote.mk "best-cafe" "b" "1.2.3.2" "t2";
     Vote.mk "best-park" "c" "1.2.3.1" "t3"; Vote.mk "best-cafe" "b" "1.2.3.1" "t4"] in
  let out := reset_my_vote (peer "1.2.3.1") (reset_payload "best-cafe")
                           (open_db true 2 votes) in
  fst out = Return reset_applied
  ∧ current_votes (snd out)
    = [Vote.mk "best-cafe" "b" "1.2.3.2" "t2"; Vote.mk "best-park" "c" "1.2.3.1" "t3"]
  ∧ fst (reset_my_vote (peer "1.2.3.1") (reset_payload "best-cafe") (snd out))
    = Return reset_skipped.
Proof.
  intros votes out.
  pose proof (reset_my_vote_exact (peer "1.2.3.1") (reset_payload "best-cafe")
                "best-cafe" (open_db true 2 votes)
                eq_refl eq_refl ltac:(discriminate)) as [_ Happlied].
  pose proof (reset_my_vote_exact (peer "1.2.3.1") (reset_payload "best-cafe")
                "best-cafe" (snd out)
                eq_refl eq_refl ltac:(discriminate)) as [Hskipped _].
  split; [|split].
  - apply Happlied; [discriminate | reflexivity].
  - reflexivity.
  - apply Hskipped. reflexivity.
Defined.

(** C6, as stated, fails at the empty [category_id]: the reset is refused
    with the [category_id]-required error, the identity's vote in that
    category stays in the ledger, and a reset that matches nothing is
    refused as well instead of answering "skipped". *)
Lemma reset_my_vote_empty_category_id :
  current_votes db_with_unnamed_category_vote
    = [Vote.mk "" "a" "1.2.3.1" "2026-01-01T00:00:00"]
  ∧ fst (reset_my_vote (peer "1.2.3.1") (reset_payload "")
                       db_with_unnamed_category_vote)
    = Raise category_id_required_error
  ∧ ¬ reset_exact (peer "1.2.3.1") "" db_with_unnamed_category_vote
  ∧ ¬ reset_exact (peer "1.2.3.9") "" db_with_unnamed_category_vote.
Proof.
  split; [reflexivity|]. split; [reflexivity|]. split.
  - intros [Hledger _]. vm_compute in Hledger. discriminate.
  - intros [_ Hskip]. specialize (Hskip eq_refl). vm_compute in Hskip.
    discriminate.
Qed.

(** *** Tally *)

Lemma zero_counts_lookup (ps : list Participant.t) (p_id : string) :
  zero_counts ps !! p_id
  = if decide (p_id ∈ Participant.id <$> ps) then Some 0%nat else None.
Proof.
  unfold zero_counts.
  induction ps as [|p ps IH] using rev_ind; [done|].
  rewrite foldl_app, fmap_app. simpl.
  destruct (decide (Participant.id p = p_id)) as [<-|Hne].
  - rewrite lookup_insert_eq. rewrite decide_True; [done|].
    apply elem_of_app. right. by apply list_elem_of_singleton.
  - rewrite lookup_insert_ne by done. rewrite IH.
    destruct (decide (p_id ∈ Participant.id <$> ps)) as [Hin|Hnot].
    + rewrite decide_True; [done|]. apply elem_of_app. by left.
    + rewrite decide_False; [done|].
      intros [Hin|Hin%list_elem_of_singleton]%elem_of_app; congruence.
Qed.

Lemma init_results_lookup_Some (categories : list Category.t) (c_id : string)
    (counts : gmap string nat) :
  init_results categories !! c_id = Some counts →
  ∃ c, c ∈ categories ∧ Category.id c = c_id
       ∧ counts = zero_counts (Category.participants c).
Proof.
  unfold init_results.
  induction categories as [|c0 categories IH] using rev_ind; [done|].
  rewrite foldl_app. simpl.
  destruct (decide (Category.id c0 = c_id)) as [<-|Hne].
  - rewrite lookup_insert_eq. intros [= <-]. exists c0.
    split; [|done]. apply elem_of_app. right. by apply list_elem_of_singleton.
  - rewrite lookup_insert_ne by done. intros (c & Hc & Hid & Hcounts)%IH.
    exists c. split; [|done]. apply elem_of_app. by left.
Qed.

Lemma init_results_lookup_None (categories : list Category.t) (c_id : string) :
  c_id ∉ category_ids categories → init_results categories !! c_id = None.
Proof.
  intros Hnot. destruct (init_results categories !! c_id) eqn:Hl; [|done].
  apply init_results_lookup_Some in Hl as (c & Hc & <- & _).
  exfalso. apply Hnot. unfold category_ids. by apply list_elem_of_fmap_2.
Qed.

Lemma init_results_lookup_NoDup (categories : list Category.t)
    (c : Category.t) :
  NoDup (category_ids categories) → c ∈ categories →
  init_results categories !! Category.id c
  = Some (zero_counts (Category.participants c)).
Proof.
  unfold init_results, category_ids.
  induction categories as [|c0 categories IH] using rev_ind;
    [by intros _ ?%elem_of_nil|].
  rewrite fmap_app, foldl_app. simpl.
  intros [Hnd [Hdisj _]]%NoDup_app Hin.
  apply elem_of_app in Hin as [Hin|Hin%list_elem_of_singleton].
  - destruct (decide (Category.id c0 = Category.id c)) as [Heq|Hne].
    + exfalso. apply (Hdisj (Category.id c)).
      * by apply list_elem_of_fmap_2.
      * rewrite <- Heq. by apply list_elem_of_singleton.
    + rewrite lookup_insert_ne by done. by apply IH.
  - subst c0. by rewrite lookup_insert_eq.
Qed.

Lemma count_vote_lookup_None results_data (v : Vote.t) (c_id : string) :
  count_vote results_data v !! c_id = None ↔ results_data !! c_id = None.
Proof.
  unfold count_vote.
  destruct (results_data !! Vote.category_id v) as [counts|] eqn:Hc; [|done].
  destruct (counts !! Vote.participant_id v); [|done].
  destruct (decide (Vote.category_id v = c_id)) as [<-|Hne].
  - rewrite lookup_insert_eq, Hc. done.
  - by rewrite lookup_insert_ne.
Qed.

Lemma count_vote_count_of results_data (v : Vote.t) (c_id p_id : string) :
  count_of (count_vote results_data v) c_id p_id
  = (fun n => if decide (Vote.category_id v = c_id
                         ∧ Vote.participant_id v = p_id)
              then S n else n)
    <$> count_of results_data c_id p_id.
Proof.
  unfold count_vote, count_of.
  destruct (decide (Vote.category_id v = c_id)) as [<-|Hc].
  - destruct (results_data !! Vote.category_id v) as [counts|] eqn:Hcounts;
      simpl; [|by rewrite Hcounts].
    destruct (counts !! Vote.participant_id v) as [n|] eqn:Hn.
    + rewrite lookup_insert_eq. simpl.
      destruct (decide (Vote.participant_id v = p_id)) as [<-|Hp].
      * rewrite lookup_insert_eq, Hn. simpl. by rewrite decide_True.
      * rewrite lookup_insert_ne by done.
        destruct (counts !! p_id); simpl; [|done].
        rewrite decide_False; [done|tauto].
    + rewrite Hcounts. simpl.
      destruct (counts !! p_id) eqn:Hp; simpl; [|done].
      rewrite decide_False; [done|]. intros [_ <-]. congruence.
  - assert (count_vote results_data v !! c_id = results_data !! c_id) as Hsame.
    { unfold count_vote.
      destruct (results_data !! Vote.category_id v) as [counts|]; [|done].
      destruct (counts !! Vote.participant_id v); [|done].
      by rewrite lookup_insert_ne. }
    unfold count_vote in Hsame. rewrite Hsame.
    destruct (results_data !! c_id ≫= _); simpl; [|done].
    rewrite decide_False; [done|tauto].
Qed.

Lemma votes_for_cons (c_id p_id : string) (v : Vote.t) (votes : list Vote.t) :
  votes_for c_id p_id (v :: votes)
  = ((if decide (Vote.category_id v = c_id ∧ Vote.participant_id v = p_id)
      then 1 else 0) + votes_for c_id p_id votes)%nat.
Proof. unfold votes_for. rewrite filter_cons. by case_decide. Qed.

Lemma foldl_count_vote_lookup_None results_data (votes : list Vote.t)
    (c_id : string) :
  foldl count_vote results_data votes !! c_id = None
  ↔ results_data !! c_id = None.
Proof.
  revert results_data. induction votes as [|v votes IH]; intros rd; [done|].
  simpl. rewrite IH. apply count_vote_lookup_None.
Qed.

Lemma foldl_count_vote_count_of results_data (votes : list Vote.t)
    (c_id p_id : string) :
  count_of (foldl count_vote results_data votes) c_id p_id
  = (fun n => (n + votes_for c_id p_id votes)%nat)
    <$> count_of results_data c_id p_id.
Proof.
  revert results_data. induction votes as [|v votes IH]; intros rd; simpl.
  - destruct (count_of rd c_id p_id); simpl; [|done].
    f_equal. unfold votes_for. simpl. lia.
  - rewrite IH, count_vote_count_of, votes_for_cons.
    destruct (count_of rd c_id p_id); simpl; [|done].
    f_equal. case_decide; lia.
Qed.

(** A vote whose pair has no counter leaves the tally as it is. *)
Lemma count_vote_stale results_data (v : Vote.t) :
  count_of results_data (Vote.category_id v) (Vote.participant_id v) = None →
  count_vote results_data v = results_data.
Proof.
  unfold count_of, count_vote.
  destruct (results_data !! Vote.category_id v) as [counts|]; simpl; [|done].
  by intros ->.
Qed.

Lemma init_results_lookup_is_Some (categories : list Category.t)
    (c_id : string) :
  c_id ∈ category_ids categories → is_Some (init_results categories !! c_id).
Proof.
  unfold init_results, category_ids.
  induction categories as [|c0 categories IH] using rev_ind;
    [by intros ?%elem_of_nil|].
  rewrite fmap_app, foldl_app. simpl. intros Hin.
  destruct (decide (Category.id c0 = c_id)) as [<-|Hne].
  - rewrite lookup_insert_eq. by eexists.
  - rewrite lookup_insert_ne by done. apply IH.
    apply elem_of_app in Hin as [Hin|Hin]; [done|].
    apply list_elem_of_singleton in Hin. congruence.
Qed.

(** The counters of one category in the view. *)
Lemma tally_counts (categories : list Category.t) (votes : list Vote.t)
    (c_id : string) (counts : gmap string nat) :
  tally categories votes !! c_id = Some counts →
  ∃ zeros, init_results categories !! c_id = Some zeros
           ∧ ∀ p_id, counts !! p_id
                     = (fun n => (n + votes_for c_id p_id votes)%nat)
                       <$> zeros !! p_id.
Proof.
  unfold tally. intros Hl.
  destruct (init_results categories !! c_id) as [zeros|] eqn:Hinit.
  - exists zeros. split; [done|]. intros p_id.
    pose proof (foldl_count_vote_count_of (init_results categories) votes
                  c_id p_id) as Hcount.
    unfold count_of in Hcount. by rewrite Hl, Hinit in Hcount.
  - pose proof (proj2 (foldl_count_vote_lookup_None _ votes c_id) Hinit).
    congruence.
Qed.

(** C5. With voting closed, the keys of the results view are the category
    ids of the table, and each of them is mapped to a mapping whose keys are
    the participant ids of a category with that id and whose values are the
    numbers of vote records referencing that (category, participant) pair,
    0 for a participant without votes; with unique category ids this holds
    for every category of the table.  Nothing else is in the view, so a
    vote whose category or participant is not in the table is counted
    nowhere.  For the category c1 with participants p1 and p2 and the votes
    (c1,p1,ipA), (c1,p2,ipB), (c1,p1,ipC) the view is {c1: {p1: 2, p2: 1}}. *)
Theorem get_results_tally :
  (∀ db,
     Settings.is_voting_active (current_settings db) = false →
     ∃ results_data,
       fst (get_results db)
         = Return (mkResultsResponse true None (Some results_data))
       ∧ (∀ c_id, is_Some (results_data !! c_id)
                  ↔ c_id ∈ category_ids (current_categories db))
       ∧ (∀ c_id counts,
            results_data !! c_id = Some counts →
            ∃ c, c ∈ current_categories db ∧ Category.id c = c_id
                 ∧ ∀ p_id,
                     counts !! p_id
                     = if decide (p_id ∈ participant_ids c)
                       then Some (votes_for c_id p_id (current_votes db))
                       else None)
       ∧ (NoDup (category_ids (current_categories db)) →
          ∀ c, c ∈ current_categories db →
               ∃ counts,
                 results_data !! Category.id c = Some counts
                 ∧ ∀ p_id,
                     counts !! p_id
                     = if decide (p_id ∈ participant_ids c)
                       then Some (votes_for (Category.id c) p_id
                                            (current_votes db))
                       else None))
  ∧ fst (get_results example_db)
    = Return (mkResultsResponse true None
                (Some {[ "c1" := {[ "p1" := 2%nat; "p2" := 1%nat ]} ]})).
Proof.
  split; [|by vm_compute].
  intros db Hclosed. run_handler. rewrite Hclosed. simpl.
  eexists. split; [reflexivity|].
  set (categories := current_categories db). set (votes := current_votes db).
  assert (∀ c_id counts c,
            tally categories votes !! c_id = Some counts →
            init_results categories !! c_id
              = Some (zero_counts (Category.participants c)) →
            ∀ p_id,
              counts !! p_id
              = if decide (p_id ∈ participant_ids c)
                then Some (votes_for c_id p_id votes) else None) as Hcounts.
  { intros c_id counts c (zeros & Hzeros & Hp)%tally_counts Hinit p_id.
    rewrite Hp. assert (zeros = zero_counts (Category.participants c)) as ->
      by congruence.
    rewrite zero_counts_lookup. unfold participant_ids. by case_decide. }
  split; [|split].
  - intros c_id. rewrite <- !not_eq_None_Some. unfold tally.
    rewrite foldl_count_vote_lookup_None. split.
    + intros Hsome. destruct (decide (c_id ∈ category_ids categories));
        [done|]. by apply init_results_lookup_None in n.
    + intros Hin%init_results_lookup_is_Some. by apply not_eq_None_Some.
  - intros c_id counts Hl.
    destruct (tally_counts _ _ _ _ Hl) as (zeros & Hzeros & _).
    destruct (init_results_lookup_Some _ _ _ Hzeros) as (c & Hc & Hid & ->).
    exists c. split; [done|]. split; [done|]. by eapply Hcounts.
  - intros Hnodup c Hc.
    pose proof (init_results_lookup_NoDup _ c Hnodup Hc) as Hinit.
    destruct (tally categories votes !! Category.id c) as [counts|] eqn:Hl.
    + exists counts. split; [done|]. by eapply Hcounts.
    + apply foldl_count_vote_lookup_None in Hl. congruence.
Qed.

Lemma get_results_tally_witness :
  ∃ results_data,
    fst (get_results example_db)
      = Return (mkResultsResponse true None (Some results_data))
    ∧ (∃ counts, results_data !! "c1" = Some counts
                 ∧ counts !! "p1" = Some 2%nat ∧ counts !! "p2" = Some 1%nat
                 ∧ counts !! "p3" = None)
    ∧ results_data !! "c2" = None.
Proof.
  destruct (proj1 get_results_tally example_db)
    as (rd & Hrd & Hkeys & _ & Hin).
  - reflexivity.
  - exists rd. split; [exact Hrd|]. split.
    + destruct (Hin (NoDup_singleton "c1") c1) as (counts & Hc & Hp);
        [by apply list_elem_of_singleton|].
      exists counts. split; [exact Hc|]. rewrite !Hp. by vm_compute.
    + apply eq_None_not_Some. rewrite Hkeys.
      intros Hc2%list_elem_of_singleton. discriminate.
Defined.

(** What the results hold, in terms of the tables alone: the keys are the
    category ids, and the counters of a key are those of a category with
    that id, one per participant id, each the number of votes for the
    pair. *)
Lemma tally_characterised (categories : list Category.t)
    (votes : list Vote.t) :
  (∀ c_id, is_Some (tally categories votes !! c_id)
           ↔ c_id ∈ category_ids categories)
  ∧ (∀ c_id counts,
       tally categories votes !! c_id = Some counts →
       ∃ c, c ∈ categories ∧ Category.id c = c_id
            ∧ ∀ p_id,
                counts !! p_id
                = if decide (p_id ∈ participant_ids c)
                  then Some (votes_for c_id p_id votes) else None)
  ∧ (NoDup (category_ids categories) →
     ∀ c, c ∈ categories →
          ∃ counts,
            tally categories votes !! Category.id c = Some counts
            ∧ ∀ p_id,
                counts !! p_id
                = if decide (p_id ∈ participant_ids c)
                  then Some (votes_for (Category.id c) p_id votes)
                  else None).
Proof.
  assert (∀ c_id counts c,
            tally categories votes !! c_id = Some counts →
            init_results categories !! c_id
              = Some (zero_counts (Category.participants c)) →
            ∀ p_id,
              counts !! p_id
              = if decide (p_id ∈ participant_ids c)
                then Some (votes_for c_id p_id votes) else None) as Hcounts.
  { intros c_id counts c (zeros & Hzeros & Hp)%tally_counts Hinit p_id.
    rewrite Hp. assert (zeros = zero_counts (Category.participants c)) as ->
      by congruence.
    rewrite zero_counts_lookup. unfold participant_ids. by case_decide. }
  split; [|split].
  - intros c_id. rewrite <- !not_eq_None_Some. unfold tally.
    rewrite foldl_count_vote_lookup_None. split.
    + intros Hsome.
      destruct (decide (c_id ∈ category_ids categories)) as [|Hnot]; [done|].
      by apply init_results_lookup_None in Hnot.
    + intros Hin%init_results_lookup_is_Some. by apply not_eq_None_Some.
  - intros c_id counts Hl.
    destruct (tally_counts _ _ _ _ Hl) as (zeros & Hzeros & _).
    destruct (init_results_lookup_Some _ _ _ Hzeros) as (c & Hc & Hid & ->).
    exists c. split; [done|]. split; [done|]. by eapply Hcounts.
  - intros Hnodup c Hc.
    pose proof (init_results_lookup_NoDup _ c Hnodup Hc) as Hinit.
    destruct (tally categories votes !! Category.id c) as [counts|] eqn:Hl.
    + exists counts. split; [done|]. by eapply Hcounts.
    + apply foldl_count_vote_lookup_None in Hl. congruence.
Qed.

(** C4. The results view hides the tally while voting is active and shows
    it once voting is closed, for every categories and votes table.  When
    [is_voting_active] is true the response carries [visible = false], a
    message and no data.  When it is false the response carries
    [visible = true] and the data: one key per category id of the table,
    mapped to one counter per participant id of a category with that id
    (with unique ids: of every category), each counter being the number of
    vote records for that (category, participant) pair. *)
Theorem get_results_visibility db :
  ∃ r,
    fst (get_results db) = Return r
    ∧ visible r = negb (Settings.is_voting_active (current_settings db))
    ∧ (Settings.is_voting_active (current_settings db) = true →
       data r = None ∧ results_message r = Some results_hidden_message)
    ∧ (Settings.is_voting_active (current_settings db) = false →
       ∃ results_data,
         data r = Some results_data
         ∧ results_message r = None
         ∧ (∀ c_id, is_Some (results_data !! c_id)
                    ↔ c_id ∈ category_ids (current_categories db))
         ∧ (∀ c_id counts,
              results_data !! c_id = Some counts →
              ∃ c, c ∈ current_categories db ∧ Category.id c = c_id
                   ∧ ∀ p_id,
                       counts !! p_id
                       = if decide (p_id ∈ participant_ids c)
                         then Some (votes_for c_id p_id (current_votes db))
                         else None)
         ∧ (NoDup (category_ids (current_categories db)) →
            ∀ c, c ∈ current_categories db →
                 ∃ counts,
                   results_data !! Category.id c = Some counts
                   ∧ ∀ p_id,
                       counts !! p_id
                       = if decide (p_id ∈ participant_ids c)
                         then Some (votes_for (Category.id c) p_id
                                              (current_votes db))
                         else None)).
Proof.
  run_handler.
  destruct (Settings.is_voting_active (current_settings db)); simpl.
  - eexists. split; [reflexivity|]. split; [reflexivity|]. by split.
  - eexists. split; [reflexivity|]. split; [reflexivity|].
    split; [done|]. intros _. eexists. split; [reflexivity|].
    split; [reflexivity|].
    apply tally_characterised.
Qed.

Lemma get_results_visibility_witness :
  (∃ r, fst (get_results (open_db true 2 [])) = Return r
        ∧ visible r = false ∧ data r = None)
  ∧ (∃ r results_data counts,
       fst (get_results example_db) = Return r
       ∧ visible r = true
       ∧ data r = Some results_data
       ∧ results_data !! "c1" = Some counts
       ∧ counts !! "p1" = Some 2%nat
       ∧ counts !! "p2" = Some 1%nat
       ∧ results_data !! "c2" = None).
Proof.
  split.
  - destruct (get_results_visibility (open_db true 2 []))
      as (r & Hr & Hvisible & Hopen & _).
    exists r. split; [exact Hr|]. split; [exact Hvisible|].
    by apply Hopen.
  - destruct (get_results_visibility example_db)
      as (r & Hr & Hvisible & _ & Hclosed).
    destruct (Hclosed eq_refl) as (rd & Hdata & _ & Hkeys & _ & Hin).
    destruct (Hin (NoDup_singleton "c1") c1) as (counts & Hc & Hp);
      [by apply list_elem_of_singleton|].
    exists r, rd, counts. split; [exact Hr|]. split; [exact Hvisible|].
    split; [exact Hdata|]. split; [exact Hc|].
    split; [rewrite Hp; by vm_compute|]. split; [rewrite Hp; by vm_compute|].
    apply eq_None_not_Some. rewrite Hkeys.
    intros Hc2%list_elem_of_singleton. discriminate.
Defined.


(** *** Casting *)

(** What a cast leaves in the store: the settings and the categories as they
    were, and the ledger either as it was or with the new vote at its end,
    the latter under anti-abuse only below the quota of the category
    found. *)
Lemma cast_vote_store utcnow vote_req request db :
  let out := cast_vote utcnow vote_req request db in
  let ip := get_client_ip request in
  let c_id := VoteRequest.category_id vote_req in
  settings_file (snd out) = settings_file db
  ∧ categories_file (snd out) = categories_file db
  ∧ (votes_file (snd out) = votes_file db
     ∨ (current_votes (snd out)
          = (current_votes db ++ [new_vote utcnow vote_req request])%list
        ∧ (Settings.anti_abuse_enabled (current_settings db) = true →
           ∃ category,
             find_category c_id (current_categories db) = Some category
             ∧ (votes_cast ip c_id db < Category.max_votes category)%Z))).
Proof.
  run_handler. unfold votes_cast.
  destruct (Settings.is_voting_active (current_settings db)); simpl;
    [|by auto].
  destruct (Settings.anti_abuse_enabled (current_settings db)); simpl;
    forget_loads.
  - destruct (find_category _ (current_categories db)) as [category|] eqn:Hf;
      simpl; [|by auto].
    rewrite Z.geb_leb.
    destruct (Z.leb_spec (Category.max_votes category)
                (Z.of_nat (length (votes_of (get_client_ip request)
                                     (VoteRequest.category_id vote_req)
                                     (current_votes db))))); simpl;
      [by auto|].
    destruct (can_write db T_votes); simpl; [|by auto].
    split; [done|]. split; [done|]. right. split; [done|].
    intros _. by exists category.
  - destruct (can_write db T_votes); simpl; [|by auto].
    split; [done|]. split; [done|]. right. by split.
Qed.

(** A cast that passes the checks, with a writable votes table, is accepted
    and appends its vote. *)
Lemma cast_vote_accepted utcnow vote_req request db :
  let ip := get_client_ip request in
  let c_id := VoteRequest.category_id vote_req in
  Settings.is_voting_active (current_settings db) = true →
  can_write db T_votes = true →
  (Settings.anti_abuse_enabled (current_settings db) = true →
   ∃ category,
     find_category c_id (current_categories db) = Some category
     ∧ (votes_cast ip c_id db < Category.max_votes category)%Z) →
  let out := cast_vote utcnow vote_req request db in
  fst out = Return vote_accepted
  ∧ settings_file (snd out) = settings_file db
  ∧ categories_file (snd out) = categories_file db
  ∧ votes_file (snd out)
    = Some (current_votes db ++ [new_vote utcnow vote_req request])%list.
Proof.
  intros ip c_id Hopen Hwrite Hchecks. subst ip c_id.
  run_handler. rewrite Hopen. simpl.
  destruct (Settings.anti_abuse_enabled (current_settings db)); simpl;
    forget_loads.
  - destruct Hchecks as (category & -> & Hlt); [done|]. simpl.
    rewrite Z.geb_leb. unfold votes_cast in Hlt.
    destruct (Z.leb_spec (Category.max_votes category)
                (Z.of_nat (length (votes_of (get_client_ip request)
                                     (VoteRequest.category_id vote_req)
                                     (current_votes db)))));
      [lia|].
    simpl. by rewrite Hwrite.
  - by rewrite Hwrite.
Qed.

(** A cast at or over the quota is refused with status 403 and appends
    nothing. *)
Lemma cast_vote_over_quota utcnow vote_req request category db :
  let ip := get_client_ip request in
  let c_id := VoteRequest.category_id vote_req in
  Settings.is_voting_active (current_settings db) = true →
  Settings.anti_abuse_enabled (current_settings db) = true →
  find_category c_id (current_categories db) = Some category →
  (Category.max_votes category <= votes_cast ip c_id db)%Z →
  let out := cast_vote utcnow vote_req request db in
  fst out = Raise quota_exceeded_error
  ∧ same_files db (snd out)
  ∧ new_accesses db (snd out) [Load T_settings; Load T_votes; Load T_categories].
Proof.
  intros ip c_id Hopen Habuse Hfind Hfull. subst ip c_id. run_handler.
  rewrite Hopen. simpl. rewrite Habuse. simpl. forget_loads.
  rewrite Hfind. simpl. rewrite Z.geb_leb. unfold votes_cast in Hfull.
  destruct (Z.leb_spec (Category.max_votes category)
              (Z.of_nat (length (votes_of (get_client_ip request)
                                   (VoteRequest.category_id vote_req)
                                   (current_votes db)))));
    [|lia].
  simpl. unfold new_accesses. simpl. rewrite <- !app_assoc. by repeat split.
Qed.

(** *** The my-votes view *)

Lemma my_votes_step_lookup (ip : string) (my_votes : gmap string (list string))
    (v : Vote.t) (c_id : string) :
  my_votes_step ip my_votes v !! c_id
  = if decide (Vote.ip_address v = ip ∧ Vote.category_id v = c_id)
    then Some (default [] (my_votes !! c_id) ++ [Vote.participant_id v])%list
    else my_votes !! c_id.
Proof.
  unfold my_votes_step. case_bool_decide as Hip.
  - destruct (decide (Vote.category_id v = c_id)) as [<-|Hne].
    + rewrite decide_True by done. rewrite lookup_alter_eq.
      destruct (my_votes !! Vote.category_id v) eqn:Hl.
      * by rewrite Hl.
      * by rewrite lookup_insert_eq.
    + rewrite decide_False by tauto. rewrite lookup_alter_ne by done.
      destruct (my_votes !! Vote.category_id v); [done|].
      by rewrite lookup_insert_ne.
  - rewrite decide_False by tauto. done.
Qed.

Lemma my_participants_snoc (ip c_id : string) (votes : list Vote.t)
    (v : Vote.t) :
  my_participants ip c_id (votes ++ [v])
  = (my_participants ip c_id votes
     ++ if decide (Vote.ip_address v = ip ∧ Vote.category_id v = c_id)
        then [Vote.participant_id v] else [])%list.
Proof.
  unfold my_participants, votes_of.
  rewrite filter_app, fmap_app, filter_cons, filter_nil. by case_decide.
Qed.

(** The view lists, per category, the participants of the identity's votes
    in ledger order; a category without a vote of the identity is absent. *)
Lemma my_votes_lookup (ip : string) (votes : list Vote.t) (c_id : string) :
  foldl (my_votes_step ip) ∅ votes !! c_id
  = match my_participants ip c_id votes with
    | [] => None
    | l => Some l
    end.
Proof.
  induction votes as [|v votes IH] using rev_ind; [done|].
  rewrite foldl_app. simpl.
  rewrite my_votes_step_lookup, my_participants_snoc, IH.
  case_decide.
  - destruct (my_participants ip c_id votes); done.
  - by rewrite app_nil_r.
Qed.

Lemma votes_of_snoc (ip c_id : string) (votes : list Vote.t) (v : Vote.t) :
  votes_of ip c_id (votes ++ [v])
  = (votes_of ip c_id votes
     ++ if decide (Vote.ip_address v = ip ∧ Vote.category_id v = c_id)
        then [v] else [])%list.
Proof.
  unfold votes_of. rewrite filter_app, filter_cons, filter_nil.
  by case_decide.
Qed.

(** C10. A cast made while voting is active that passes the category and
    quota checks is accepted and appends exactly one record, whatever its
    [participant_id]: the record counts towards the identity's quota in the
    category and is listed by the my-votes view, and when no category with
    that id has such a participant the tally is the same as before. *)
Theorem cast_vote_participant_unchecked utcnow vote_req request db :
  let ip := get_client_ip request in
  let c_id := VoteRequest.category_id vote_req in
  let p_id := VoteRequest.participant_id vote_req in
  Settings.is_voting_active (current_settings db) = true →
  can_write db T_votes = true →
  (Settings.anti_abuse_enabled (current_settings db) = true →
   ∃ category,
     find_category c_id (current_categories db) = Some category
     ∧ (votes_cast ip c_id db < Category.max_votes category)%Z) →
  let out := cast_vote utcnow vote_req request db in
  fst out = Return vote_accepted
  ∧ current_votes (snd out)
    = (current_votes db ++ [Vote.mk c_id p_id ip utcnow])%list
  ∧ votes_cast ip c_id (snd out) = (votes_cast ip c_id db + 1)%Z
  ∧ (∃ my_votes,
       fst (get_my_votes request (snd out)) = Return my_votes
       ∧ my_votes !! c_id
         = Some (my_participants ip c_id (current_votes db) ++ [p_id])%list)
  ∧ ((∀ c, c ∈ current_categories db → Category.id c = c_id →
           p_id ∉ participant_ids c) →
     tally (current_categories (snd out)) (current_votes (snd out))
     = tally (current_categories db) (current_votes db)).
Proof.
  intros ip c_id p_id Hopen Hwrite Hchecks out.
  destruct (cast_vote_accepted utcnow vote_req request db Hopen Hwrite Hchecks)
    as (Hout & _ & Hcats & Hvotes).
  fold out in Hout, Hcats, Hvotes.
  assert (current_votes (snd out)
          = (current_votes db ++ [Vote.mk c_id p_id ip utcnow])%list)
    as Hledger by (unfold current_votes at 1; by rewrite Hvotes).
  split; [done|]. split; [done|]. split; [|split].
  - unfold votes_cast. rewrite Hledger, votes_of_snoc. simpl.
    rewrite decide_True by done. rewrite length_app. simpl. lia.
  - eexists. split; [run_handler; reflexivity|]. fold ip.
    rewrite my_votes_lookup, Hledger, my_participants_snoc. simpl.
    rewrite decide_True by done.
    by destruct (my_participants ip c_id (current_votes db)).
  - intros Hnobody. unfold current_categories at 1. rewrite Hcats.
    fold (current_categories db). rewrite Hledger. unfold tally.
    rewrite foldl_app. simpl. apply count_vote_stale. simpl.
    rewrite foldl_count_vote_count_of. unfold count_of.
    destruct (init_results (current_categories db) !! c_id)
      as [counts|] eqn:Hinit; [|done].
    apply init_results_lookup_Some in Hinit as (c & Hc & Hid & ->). simpl.
    rewrite zero_counts_lookup, decide_False; [done|].
    by apply Hnobody.
Qed.

Lemma cast_vote_participant_unchecked_witness :
  let request := peer "1.2.3.1" in
  let out := cast_vote "2026-01-01T00:00:00"
                       (VoteRequest.mk "best-cafe" "nobody") request
                       (open_db true 2 []) in
  fst out = Return vote_accepted
  ∧ current_votes (snd out)
    = [Vote.mk "best-cafe" "nobody" "1.2.3.1" "2026-01-01T00:00:00"]
  ∧ votes_cast "1.2.3.1" "best-cafe" (snd out) = 1%Z
  ∧ fst (get_my_votes request (snd out))
    = Return {[ "best-cafe" := ["nobody"] ]}
  ∧ tally (current_categories (snd out)) (current_votes (snd out))
    = {[ "best-cafe" := {[ "a" := 0%nat; "b" := 0%nat ]} ]}.
Proof.
  intros request out. subst request out.
  destruct (cast_vote_participant_unchecked "2026-01-01T00:00:00"
              (VoteRequest.mk "best-cafe" "nobody") (peer "1.2.3.1")
              (open_db true 2 []))
    as (Hout & Hledger & Hcount & _ & Htally).
  - reflexivity.
  - reflexivity.
  - intros _. exists (best_cafe 2). split; [reflexivity|]. by vm_compute.
  - split; [exact Hout|]. split; [exact Hledger|].
    split; [exact Hcount|]. split; [by vm_compute|].
    rewrite Htally; [by vm_compute|].
    intros c Hc _. apply list_elem_of_singleton in Hc. subst c.
    intros [Ha|Hb%list_elem_of_singleton]%elem_of_cons; discriminate.
Defined.

(** *** The quota over an execution *)

Lemma reset_my_vote_store request (payload : gmap string string) db :
  let out := reset_my_vote request payload db in
  settings_file (snd out) = settings_file db
  ∧ categories_file (snd out) = categories_file db
  ∧ (votes_file (snd out) = votes_file db
     ∨ ∃ ip c_id,
         current_votes (snd out)
         = filter (fun v => ¬ (Vote.ip_address v = ip
                               ∧ Vote.category_id v = c_id))
                  (current_votes db)).
Proof.
  run_handler.
  destruct (Settings.is_voting_active (current_settings db)); simpl;
    [|by auto].
  destruct (truthy (payload !! "category_id")); simpl; [|by auto].
  forget_loads.
  destruct (length _ =? length (current_votes db))%nat; simpl; [by auto|].
  destruct (can_write db T_votes); simpl; [|by auto].
  split; [done|]. split; [done|]. right. by eexists _, _.
Qed.

Lemma read_only_files db :
  same_files db (snd (get_status db))
  ∧ same_files db (snd (get_categories db))
  ∧ (∀ request, same_files db (snd (get_my_votes request db)))
  ∧ same_files db (snd (get_results db))
  ∧ (∀ SECRET_KEY x_admin_token,
       same_files db (snd (get_admin_data SECRET_KEY x_admin_token db))).
Proof.
  repeat split; run_handler; try done.
  all: try (destruct (Settings.is_voting_active (current_settings db)); done).
  all: case_bool_decide; done.
Qed.

Lemma update_settings_store SECRET_KEY x_admin_token settings db :
  let out := update_settings SECRET_KEY x_admin_token settings db in
  categories_file (snd out) = categories_file db
  ∧ votes_file (snd out) = votes_file db
  ∧ (settings_file (snd out) = settings_file db
     ∨ (x_admin_token = Some SECRET_KEY
        ∧ settings_file (snd out) = Some settings)).
Proof.
  run_handler. case_bool_decide as Htok; simpl; [by auto|].
  destruct (can_write db T_settings); simpl; by auto.
Qed.

Lemma update_categories_store SECRET_KEY x_admin_token categories db :
  let out := update_categories SECRET_KEY x_admin_token categories db in
  settings_file (snd out) = settings_file db
  ∧ votes_file (snd out) = votes_file db
  ∧ (categories_file (snd out) = categories_file db
     ∨ (x_admin_token = Some SECRET_KEY
        ∧ categories_file (snd out) = Some categories)).
Proof.
  run_handler. case_bool_decide as Htok; simpl; [by auto|].
  destruct (can_write db T_categories); simpl; by auto.
Qed.

Lemma votes_of_filter_le (ip c_id : string) (Q : Vote.t → Prop)
    `{!∀ v, Decision (Q v)} (votes : list Vote.t) :
  (length (votes_of ip c_id (filter Q votes))
   <= length (votes_of ip c_id votes))%nat.
Proof.
  unfold votes_of. induction votes as [|v votes IH]; [done|].
  rewrite !filter_cons.
  repeat case_decide; rewrite ?filter_cons; repeat case_decide; simpl;
    try lia; tauto.
Qed.

Section Quota.

Variable categories : list Category.t.
Variable votes : list Vote.t.

Lemma fits_quota_filter (Q : Vote.t → Prop) `{!∀ v, Decision (Q v)} :
  fits_quota categories votes → fits_quota categories (filter Q votes).
Proof.
  intros Hq ip c_id category Hfind. specialize (Hq ip c_id category Hfind).
  pose proof (votes_of_filter_le ip c_id Q votes). lia.
Qed.

Lemma fits_quota_append (v : Vote.t) :
  (∃ category,
     find_category (Vote.category_id v) categories = Some category
     ∧ (Z.of_nat (length (votes_of (Vote.ip_address v) (Vote.category_id v)
                                   votes))
        < Category.max_votes category)%Z) →
  fits_quota categories votes → fits_quota categories (votes ++ [v]).
Proof.
  intros (found & Hfound & Hbelow) Hq ip c_id category Hfind.
  specialize (Hq ip c_id category Hfind). rewrite votes_of_snoc.
  case_decide as Hv.
  - destruct Hv as [<- <-]. rewrite length_app. simpl.
    assert (found = category) as -> by congruence. lia.
  - by rewrite app_nil_r.
Qed.

End Quota.

(** One request that leaves the quota in force keeps anti-abuse enabled and
    the ledger within the quota. *)
Lemma serve_keeps_quota SECRET_KEY db (c : Call) :
  Settings.anti_abuse_enabled (current_settings db) = true →
  within_quota db →
  keeps_quota_config SECRET_KEY db c →
  Settings.anti_abuse_enabled (current_settings (serve SECRET_KEY db c)) = true
  ∧ within_quota (serve SECRET_KEY db c).
Proof.
  intros Habuse Hq Hkeeps.
  destruct (read_only_files db) as (Hst & Hcat & Hmy & Hres & Hadm).
  assert (∀ db', settings_file db' = settings_file db →
                 Settings.anti_abuse_enabled (current_settings db') = true)
    as Hsettings.
  { intros db' Hs. unfold current_settings. by rewrite Hs. }
  assert (∀ db', categories_file db' = categories_file db →
                 votes_file db' = votes_file db → within_quota db') as Hledger.
  { intros db' Hc Hv. unfold within_quota, current_categories, current_votes.
    by rewrite Hc, Hv. }
  assert (∀ db', same_files db db' →
            Settings.anti_abuse_enabled (current_settings db') = true
            ∧ within_quota db') as Hsame.
  { intros db' (Hs & Hc & Hv). auto. }
  destruct c as [| |request| |utcnow vote_req request|request payload
                |tok|tok settings|tok categories]; simpl; auto.
  - destruct (cast_vote_store utcnow vote_req request db)
      as (Hs & Hc & [Hv|[Hv Hchecked]]); [by auto|].
    split; [by auto|]. unfold within_quota, current_categories at 1.
    rewrite Hc, Hv. apply fits_quota_append; [|done]. by apply Hchecked.
  - destruct (reset_my_vote_store request payload db)
      as (Hs & Hc & [Hv|(ip & c_id & Hv)]); [by auto|].
    split; [by auto|]. unfold within_quota, current_categories at 1.
    rewrite Hc, Hv. by apply fits_quota_filter.
  - destruct (update_settings_store SECRET_KEY tok settings db)
      as (Hc & Hv & [Hs|[Htok Hs]]); [by auto|].
    split; [|by auto]. unfold current_settings. rewrite Hs. by apply Hkeeps.
  - destruct (update_categories_store SECRET_KEY tok categories db)
      as (Hs & Hv & [Hc|[Htok Hc]]); [by auto|].
    split; [by auto|]. unfold within_quota, current_categories, current_votes.
    rewrite Hc, Hv. by apply Hkeeps.
Qed.

Lemma find_category_NoDup (categories : list Category.t) (c : Category.t) :
  NoDup (category_ids categories) → c ∈ categories →
  find_category (Category.id c) categories = Some c.
Proof.
  unfold find_category, category_ids.
  induction categories as [|c0 categories IH]; [by intros _ ?%elem_of_nil|].
  rewrite fmap_cons. intros [Hfresh Hnd]%NoDup_cons Hin. simpl.
  apply elem_of_cons in Hin as [->|Hin].
  - by rewrite bool_decide_eq_true_2.
  - rewrite bool_decide_eq_false_2; [by apply IH|].
    intros Heq. apply Hfresh. rewrite Heq. by apply list_elem_of_fmap_2.
Qed.

Lemma serve_all_keeps_quota SECRET_KEY (calls : list Call) db :
  Settings.anti_abuse_enabled (current_settings db) = true →
  within_quota db →
  quota_in_force SECRET_KEY db calls →
  Settings.anti_abuse_enabled
    (current_settings (serve_all SECRET_KEY db calls)) = true
  ∧ within_quota (serve_all SECRET_KEY db calls).
Proof.
  unfold serve_all. revert db.
  induction calls as [|c calls IH]; intros db Habuse Hq Hcalls; [done|].
  destruct Hcalls as [Hc Hcalls]. simpl.
  destruct (serve_keeps_quota SECRET_KEY db c Habuse Hq Hc) as [Habuse' Hq'].
  by apply IH.
Qed.

(** C1, as the code has it. In a sequential execution that starts with
    anti-abuse enabled and every identity within the quota of every
    category, and in which no authorized request disables anti-abuse or
    installs a categories table that the ledger already exceeds, anti-abuse
    stays enabled and the number of persisted votes of an identity in a
    category never exceeds the [max_votes] of the category that the lookup
    by id finds, which with unique ids is every category of the table.  A
    cast attempt that would exceed the quota is refused with the
    quota-exceeded error (status 403) and appends nothing. *)
Theorem quota_kept_while_anti_abuse_enabled :
  (∀ SECRET_KEY (calls : list Call) db,
     Settings.anti_abuse_enabled (current_settings db) = true →
     within_quota db →
     quota_in_force SECRET_KEY db calls →
     let db' := serve_all SECRET_KEY db calls in
     Settings.anti_abuse_enabled (current_settings db') = true
     ∧ within_quota db'
     ∧ (NoDup (category_ids (current_categories db')) →
        ∀ ip c, c ∈ current_categories db' →
                (votes_cast ip (Category.id c) db' <= Category.max_votes c)%Z))
  ∧ (∀ utcnow vote_req request category db,
       Settings.is_voting_active (current_settings db) = true →
       Settings.anti_abuse_enabled (current_settings db) = true →
       find_category (VoteRequest.category_id vote_req)
                     (current_categories db) = Some category →
       (Category.max_votes category
        <= votes_cast (get_client_ip request)
                      (VoteRequest.category_id vote_req) db)%Z →
       let out := cast_vote utcnow vote_req request db in
       fst out = Raise quota_exceeded_error
       ∧ status_code quota_exceeded_error = 403%Z
       ∧ same_files db (snd out)
       ∧ new_accesses db (snd out)
                      [Load T_settings; Load T_votes; Load T_categories]).
Proof.
  split.
  - intros SECRET_KEY calls db Habuse Hq Hcalls db'.
    destruct (serve_all_keeps_quota SECRET_KEY calls db Habuse Hq Hcalls)
      as (Habuse' & Hq').
    split; [done|]. split; [done|].
    intros Hnd ip c Hc. apply Hq'. by apply find_category_NoDup.
  - intros utcnow vote_req request category db Hopen Habuse Hfind Hfull out.
    destruct (cast_vote_over_quota utcnow vote_req request category db
                Hopen Habuse Hfind Hfull) as (? & ? & ?).
    subst out. split; [done|]. split; [done|]. by split.
Qed.

Lemma quota_kept_while_anti_abuse_enabled_witness :
  let db' := serve_all default_SECRET_KEY fresh_db cafe_execution in
  (within_quota db'
   ∧ current_votes db'
     = [Vote.mk "best-cafe" "b" "1.2.3.1" "2026-01-01T00:00:04"])
  ∧ fst (cast_vote "2026-01-01T00:00:03" (VoteRequest.mk "best-cafe" "a")
                   (peer "1.2.3.1")
                   (open_db true 2
                      [Vote.mk "best-cafe" "a" "1.2.3.1" "2026-01-01T00:00:01";
                       Vote.mk "best-cafe" "b" "1.2.3.1" "2026-01-01T00:00:02"]))
    = Raise quota_exceeded_error.
Proof.
  intros db'. subst db'. split; [split; [|reflexivity]|].
  - apply (proj1 quota_kept_while_anti_abuse_enabled default_SECRET_KEY
             cafe_execution fresh_db).
    + reflexivity.
    + intros ip c_id category. discriminate.
    + simpl. repeat split; try done.
      intros _ ip c_id category. unfold find_category. simpl.
      case_bool_decide; [|done]. intros [= <-]. by vm_compute.
  - apply (proj2 quota_kept_while_anti_abuse_enabled "2026-01-01T00:00:03"
             (VoteRequest.mk "best-cafe" "a") (peer "1.2.3.1") (best_cafe 2)).
    + reflexivity.
    + reflexivity.
    + reflexivity.
    + by vm_compute.
Defined.

(** C1, as stated, fails.  After the administrator has disabled anti-abuse,
    let an identity vote twice in a category with [max_votes = 1] and
    enabled anti-abuse again, anti-abuse is enabled and the identity has two
    persisted votes in that category; the same holds after the
    administrator has lowered [max_votes] from 2 to 1 under an identity
    that had voted twice. *)
Lemma quota_exceeded_after_toggle :
  let db := serve_all default_SECRET_KEY fresh_db toggled_execution in
  let db2 := serve_all default_SECRET_KEY fresh_db lowered_execution in
  (Settings.anti_abuse_enabled (current_settings db) = true
   ∧ current_categories db = [best_cafe 1]
   ∧ votes_cast "1.2.3.1" "best-cafe" db = 2%Z
   ∧ ¬ quota_invariant db)
  ∧ (Settings.anti_abuse_enabled (current_settings db2) = true
     ∧ current_categories db2 = [best_cafe 1]
     ∧ votes_cast "1.2.3.1" "best-cafe" db2 = 2%Z
     ∧ ¬ quota_invariant db2).
Proof.
  intros db db2.
  assert (∀ d, current_categories d = [best_cafe 1] →
               votes_cast "1.2.3.1" "best-cafe" d = 2%Z →
               Settings.anti_abuse_enabled (current_settings d) = true →
               ¬ quota_invariant d) as Hbroken.
  { intros d Hcats Hcast Habuse Hinv.
    specialize (Hinv Habuse "1.2.3.1" (best_cafe 1)).
    rewrite Hcats in Hinv. simpl in Hinv. rewrite Hcast in Hinv.
    specialize (Hinv ltac:(apply list_elem_of_singleton; reflexivity)). lia. }
  split.
  - split; [reflexivity|]. split; [reflexivity|]. split; [reflexivity|].
    by apply Hbroken.
  - split; [reflexivity|]. split; [reflexivity|]. split; [reflexivity|].
    by apply Hbroken.
Qed.

(** ** Further properties of the handlers *)

(** X2. When the save of the votes table goes through, a cast has one of
    two outcomes: the answer "success" with exactly the new vote appended
    to the saved ledger, the identity of the vote being the resolved one;
    or one of three errors (voting closed 400, category not found 404,
    quota exceeded 403) with the three files as they were and no save
    attempted.  Settings and categories are never written. *)
Theorem cast_vote_all_or_nothing utcnow vote_req request db :
  can_write db T_votes = true →
  let out := cast_vote utcnow vote_req request db in
  settings_file (snd out) = settings_file db
  ∧ categories_file (snd out) = categories_file db
  ∧ ((fst out = Return vote_accepted
      ∧ votes_file (snd out)
        = Some (current_votes db ++ [new_vote utcnow vote_req request])%list
      ∧ Vote.ip_address (new_vote utcnow vote_req request)
        = get_client_ip request)
     ∨ (∃ e, fst out = Raise e
             ∧ e ∈ [voting_closed_error; category_not_found_error;
                    quota_exceeded_error]
             ∧ votes_file (snd out) = votes_file db
             ∧ Forall (fun a => ∀ table, a ≠ Save table)
                      (drop (length (accesses db)) (accesses (snd out))))).
Proof.
  intros Hwrite. run_handler.
  destruct (Settings.is_voting_active (current_settings db)); simpl.
  2: { split; [done|]. split; [done|]. right. eexists. split; [done|].
       split; [apply elem_of_cons; by left|]. split; [done|].
       rewrite drop_app_length. by repeat constructor. }
  destruct (Settings.anti_abuse_enabled (current_settings db)); simpl;
    forget_loads.
  - destruct (find_category _ (current_categories db)) as [category|]; simpl.
    2: { split; [done|]. split; [done|]. right. eexists. split; [done|].
         split; [apply list_elem_of_further, elem_of_cons; by left|].
         split; [done|]. rewrite <- !app_assoc, drop_app_length.
         by repeat constructor. }
    destruct (_ >=? _)%Z; simpl.
    { split; [done|]. split; [done|]. right. eexists. split; [done|].
      split; [do 2 apply list_elem_of_further; apply elem_of_cons; by left|].
      split; [done|]. rewrite <- !app_assoc, drop_app_length.
      by repeat constructor. }
    rewrite Hwrite. simpl. split; [done|]. split; [done|]. by left.
  - rewrite Hwrite. simpl. split; [done|]. split; [done|]. by left.
Qed.

Lemma cast_vote_all_or_nothing_witness :
  let out := cast_vote "2026-01-01T00:00:00" (VoteRequest.mk "best-cafe" "a")
                       (peer "1.2.3.1") (open_db true 2 []) in
  settings_file (snd out) = Some (open_settings true)
  ∧ categories_file (snd out) = Some [best_cafe 2].
Proof.
  intros out.
  destruct (cast_vote_all_or_nothing "2026-01-01T00:00:00"
              (VoteRequest.mk "best-cafe" "a") (peer "1.2.3.1")
              (open_db true 2 []) eq_refl) as (Hs & Hc & _).
  split; [exact Hs | exact Hc].
Defined.

(** X3. Under anti-abuse, with voting active, the category found and the
    votes table writable, a cast is accepted exactly when the identity has
    fewer votes in the category than its [max_votes] and refused with the
    quota-exceeded error exactly otherwise; a category whose [max_votes] is
    zero or negative accepts no vote at all. *)
Theorem cast_vote_quota_decision utcnow vote_req request category db :
  Settings.is_voting_active (current_settings db) = true →
  Settings.anti_abuse_enabled (current_settings db) = true →
  find_category (VoteRequest.category_id vote_req) (current_categories db)
    = Some category →
  can_write db T_votes = true →
  let out := cast_vote utcnow vote_req request db in
  let cast := votes_cast (get_client_ip request)
                         (VoteRequest.category_id vote_req) db in
  (fst out = Return vote_accepted ↔ (cast < Category.max_votes category)%Z)
  ∧ (fst out = Raise quota_exceeded_error
     ↔ (Category.max_votes category <= cast)%Z)
  ∧ ((Category.max_votes category <= 0)%Z →
     fst out = Raise quota_exceeded_error).
Proof.
  intros Hopen Habuse Hfind Hwrite out cast.
  assert ((cast < Category.max_votes category)%Z →
          fst out = Return vote_accepted) as Hbelow.
  { intros Hlt.
    apply (cast_vote_accepted utcnow vote_req request db Hopen Hwrite).
    intros _. by exists category. }
  assert ((Category.max_votes category <= cast)%Z →
          fst out = Raise quota_exceeded_error) as Hfull.
  { intros Hle.
    by apply (cast_vote_over_quota utcnow vote_req request category db). }
  split; [|split].
  - split; [|done]. intros Hout.
    destruct (Z.lt_ge_cases cast (Category.max_votes category)) as [|Hle];
      [done|].
    rewrite (Hfull Hle) in Hout. discriminate.
  - split; [|done]. intros Hout.
    destruct (Z.lt_ge_cases cast (Category.max_votes category)) as [Hlt|];
      [|done].
    rewrite (Hbelow Hlt) in Hout. discriminate.
  - intros Hnone. apply Hfull. unfold cast, votes_cast. lia.
Qed.

Lemma cast_vote_quota_decision_witness :
  fst (cast_vote "2026-01-01T00:00:00" (VoteRequest.mk "best-cafe" "a")
                 (peer "1.2.3.1") (open_db true 0 []))
  = Raise quota_exceeded_error.
Proof.
  apply (proj2 (proj2 (cast_vote_quota_decision "2026-01-01T00:00:00"
                         (VoteRequest.mk "best-cafe" "a") (peer "1.2.3.1")
                         (best_cafe 0) (open_db true 0 [])
                         eq_refl eq_refl eq_refl eq_refl))).
  simpl. lia.
Defined.


(** *** Executions *)

Lemma update_settings_refused SECRET_KEY x_admin_token settings db :
  x_admin_token ≠ Some SECRET_KEY →
  snd (update_settings SECRET_KEY x_admin_token settings db) = db.
Proof. intros Htok. run_handler. by rewrite bool_decide_eq_true_2. Qed.

Lemma update_categories_refused SECRET_KEY x_admin_token categories db :
  x_admin_token ≠ Some SECRET_KEY →
  snd (update_categories SECRET_KEY x_admin_token categories db) = db.
Proof. intros Htok. run_handler. by rewrite bool_decide_eq_true_2. Qed.

(** A request without the secret writes neither settings nor categories. *)
Lemma serve_unprivileged SECRET_KEY db (c : Call) :
  unprivileged SECRET_KEY c →
  settings_file (serve SECRET_KEY db c) = settings_file db
  ∧ categories_file (serve SECRET_KEY db c) = categories_file db.
Proof.
  intros Hc.
  destruct (read_only_files db) as (Hst & Hcat & Hmy & Hres & Hadm).
  destruct c as [| |request| |utcnow vote_req request|request payload
                |tok|tok settings|tok categories]; simpl.
  - by destruct Hst as (? & ? & ?).
  - by destruct Hcat as (? & ? & ?).
  - by destruct (Hmy request) as (? & ? & ?).
  - by destruct Hres as (? & ? & ?).
  - by destruct (cast_vote_store utcnow vote_req request db) as (? & ? & ?).
  - by destruct (reset_my_vote_store request payload db) as (? & ? & ?).
  - by destruct (Hadm SECRET_KEY tok) as (? & ? & ?).
  - by rewrite update_settings_refused.
  - by rewrite update_categories_refused.
Qed.

(** While voting is closed, a request without the secret leaves the ledger
    as it is. *)
Lemma serve_closed SECRET_KEY db (c : Call) :
  Settings.is_voting_active (current_settings db) = false →
  unprivileged SECRET_KEY c →
  votes_file (serve SECRET_KEY db c) = votes_file db.
Proof.
  intros Hclosed Hc.
  destruct (read_only_files db) as (Hst & Hcat & Hmy & Hres & Hadm).
  destruct c as [| |request| |utcnow vote_req request|request payload
                |tok|tok settings|tok categories]; simpl.
  - by destruct Hst as (? & ? & ?).
  - by destruct Hcat as (? & ? & ?).
  - by destruct (Hmy request) as (? & ? & ?).
  - by destruct Hres as (? & ? & ?).
  - run_handler. by rewrite Hclosed.
  - run_handler. by rewrite Hclosed.
  - by destruct (Hadm SECRET_KEY tok) as (? & ? & ?).
  - by rewrite update_settings_refused.
  - by rewrite update_categories_refused.
Qed.

(** X4. Without the admin secret no sequence of requests changes the
    settings or the categories: after any execution whose admin requests
    all carry a wrong or no token, both tables hold what they held
    before. *)
Theorem unprivileged_keep_configuration SECRET_KEY (calls : list Call) db :
  Forall (unprivileged SECRET_KEY) calls →
  settings_file (serve_all SECRET_KEY db calls) = settings_file db
  ∧ categories_file (serve_all SECRET_KEY db calls) = categories_file db.
Proof.
  unfold serve_all. revert db.
  induction calls as [|c calls IH]; intros db Hcalls; [done|].
  apply Forall_cons in Hcalls as [Hc Hcalls]. simpl.
  destruct (serve_unprivileged SECRET_KEY db c Hc) as [Hs Hcats].
  destruct (IH (serve SECRET_KEY db c) Hcalls) as [Hs' Hcats'].
  by rewrite Hs', Hcats'.
Qed.

Lemma unprivileged_keep_configuration_witness :
  let calls :=
    [PostAdminSettings (Some "guess") Settings.defaults;
     PostVote "2026-01-01T00:00:01" (VoteRequest.mk "best-cafe" "a")
              (peer "1.2.3.1");
     PostAdminCategories None [];
     GetResults] in
  settings_file (serve_all default_SECRET_KEY (open_db true 2 []) calls)
    = Some (open_settings true)
  ∧ categories_file (serve_all default_SECRET_KEY (open_db true 2 []) calls)
    = Some [best_cafe 2].
Proof.
  intros calls.
  apply (unprivileged_keep_configuration default_SECRET_KEY calls
           (open_db true 2 [])).
  repeat constructor; discriminate.
Defined.

(** X5. While voting is closed the ledger is frozen: after any execution of
    requests without the admin secret, started with [is_voting_active]
    false, the three tables hold what they held before. *)
Theorem closed_voting_freezes_ledger SECRET_KEY (calls : list Call) db :
  Settings.is_voting_active (current_settings db) = false →
  Forall (unprivileged SECRET_KEY) calls →
  same_files db (serve_all SECRET_KEY db calls).
Proof.
  unfold serve_all. revert db.
  induction calls as [|c calls IH]; intros db Hclosed Hcalls; [done|].
  apply Forall_cons in Hcalls as [Hc Hcalls]. simpl.
  destruct (serve_unprivileged SECRET_KEY db c Hc) as [Hs Hcats].
  pose proof (serve_closed SECRET_KEY db c Hclosed Hc) as Hv.
  destruct (IH (serve SECRET_KEY db c)) as (Hs' & Hcats' & Hv'); [|done|].
  - unfold current_settings. by rewrite Hs.
  - unfold same_files. by rewrite Hs', Hcats', Hv'.
Qed.

Lemma closed_voting_freezes_ledger_witness :
  same_files example_db
    (serve_all default_SECRET_KEY example_db
       [PostVote "2026-01-01T00:00:09" (VoteRequest.mk "c1" "p2")
                 (peer "ipD");
        PostVoteReset (peer "ipA") (reset_payload "c1");
        GetResults]).
Proof.
  apply closed_voting_freezes_ledger; [reflexivity|].
  repeat constructor.
Defined.

Lemma cast_vote_can_write utcnow vote_req request db :
  can_write (snd (cast_vote utcnow vote_req request db)) = can_write db.
Proof.
  run_handler.
  destruct (Settings.is_voting_active (current_settings db)); simpl; [|done].
  destruct (Settings.anti_abuse_enabled (current_settings db)); simpl.
  - forget_loads.
    destruct (find_category _ (current_categories db)); simpl; [|done].
    destruct (_ >=? _)%Z; simpl; [done|].
    by destruct (can_write db T_votes).
  - by destruct (can_write db T_votes).
Qed.

(** X6. With anti-abuse disabled there is no bound: with voting active and
    the votes table writable, every one of any sequence of casts is
    accepted, so the ledger afterwards is the ledger before followed by one
    record per request, in order, whatever the identities, categories and
    participants. *)
Theorem anti_abuse_off_accepts_all SECRET_KEY
    (reqs : list (string * VoteRequest.t * Request)) db :
  Settings.is_voting_active (current_settings db) = true →
  Settings.anti_abuse_enabled (current_settings db) = false →
  can_write db T_votes = true →
  current_votes (serve_all SECRET_KEY db (post_vote <$> reqs))
  = (current_votes db ++ (vote_of <$> reqs))%list.
Proof.
  unfold serve_all. revert db.
  induction reqs as [|[[utcnow vote_req] request] reqs IH];
    intros db Hopen Hoff Hwrite; simpl.
  - by rewrite app_nil_r.
  - destruct (cast_vote_accepted utcnow vote_req request db Hopen Hwrite)
      as (_ & Hs & _ & Hv); [by rewrite Hoff|].
    rewrite IH.
    + unfold current_votes at 1. rewrite Hv. simpl.
      by rewrite <- app_assoc.
    + unfold current_settings. by rewrite Hs.
    + unfold current_settings. by rewrite Hs.
    + by rewrite cast_vote_can_write.
Qed.

Lemma anti_abuse_off_accepts_all_witness :
  current_votes
    (serve_all default_SECRET_KEY (open_db false 1 [])
       (post_vote <$>
          [("t1", VoteRequest.mk "best-cafe" "a", peer "1.2.3.1");
           ("t2", VoteRequest.mk "best-cafe" "a", peer "1.2.3.1");
           ("t3", VoteRequest.mk "best-cafe" "b", peer "1.2.3.1")]))
  = [Vote.mk "best-cafe" "a" "1.2.3.1" "t1";
     Vote.mk "best-cafe" "a" "1.2.3.1" "t2";
     Vote.mk "best-cafe" "b" "1.2.3.1" "t3"].
Proof.
  exact (anti_abuse_off_accepts_all default_SECRET_KEY
           [("t1", VoteRequest.mk "best-cafe" "a", peer "1.2.3.1");
            ("t2", VoteRequest.mk "best-cafe" "a", peer "1.2.3.1");
            ("t3", VoteRequest.mk "best-cafe" "b", peer "1.2.3.1")]
           (open_db false 1 []) eq_refl eq_refl eq_refl).
Defined.


(** *** Reading *)

Lemma get_results_eq db :
  fst (get_results db)
  = Return (if Settings.is_voting_active (current_settings db)
            then mkResultsResponse false (Some results_hidden_message) None
            else mkResultsResponse true None
                   (Some (tally (current_categories db) (current_votes db)))).
Proof.
  run_handler. by destruct (Settings.is_voting_active (current_settings db)).
Qed.

Lemma get_my_votes_eq request db :
  get_my_votes request db
  = (Return (foldl (my_votes_step (get_client_ip request)) ∅
                   (current_votes db)),
     record_access (Load T_votes) db).
Proof. reflexivity. Qed.

Lemma serve_read_only SECRET_KEY db (c : Call) :
  read_only c → same_files db (serve SECRET_KEY db c).
Proof.
  destruct (read_only_files db) as (Hst & Hcat & Hmy & Hres & Hadm).
  destruct c; simpl; try done; auto.
Qed.

(** X7. The [GET] routes change nothing: after any sequence of status,
    categories, my-votes, results and admin-data requests the three tables
    hold what they held, so the results view and every identity's my-votes
    view answer as they did before. *)
Theorem read_only_requests_change_nothing SECRET_KEY (calls : list Call) db :
  Forall read_only calls →
  let db' := serve_all SECRET_KEY db calls in
  same_files db db'
  ∧ fst (get_results db') = fst (get_results db)
  ∧ ∀ request, fst (get_my_votes request db') = fst (get_my_votes request db).
Proof.
  intros Hcalls db'.
  assert (same_files db db') as (Hs & Hc & Hv).
  { subst db'. unfold serve_all. revert db.
    induction calls as [|c calls IH]; intros db; [done|].
    apply Forall_cons in Hcalls as [Hc Hcalls]. simpl.
    destruct (serve_read_only SECRET_KEY db c Hc) as (Hs & Hcats & Hv).
    destruct (IH Hcalls (serve SECRET_KEY db c)) as (Hs' & Hcats' & Hv').
    unfold same_files. by rewrite Hs', Hcats', Hv'. }
  split; [done|]. split.
  - rewrite !get_results_eq.
    unfold current_settings, current_categories, current_votes.
    by rewrite Hs, Hc, Hv.
  - intros request. rewrite !get_my_votes_eq. simpl.
    unfold current_votes. by rewrite Hv.
Qed.

Lemma read_only_requests_change_nothing_witness :
  fst (get_results
         (serve_all default_SECRET_KEY example_db
            [GetResults; GetMyVotes (peer "ipA"); GetResults]))
  = fst (get_results example_db).
Proof.
  apply (read_only_requests_change_nothing default_SECRET_KEY
           [GetResults; GetMyVotes (peer "ipA"); GetResults] example_db).
  repeat constructor.
Defined.

(** X8. An authorized update replaces its table wholesale and nothing else:
    after a settings update the status route returns the new settings, after
    a categories update the categories route returns the new list, and in
    both cases the ledger is untouched, so votes that refer to a removed
    category stay in it. *)
Theorem admin_update_round_trip SECRET_KEY (settings : Settings.t)
    (categories : list Category.t) db :
  (can_write db T_settings = true →
     let db' := snd (update_settings SECRET_KEY (Some SECRET_KEY) settings db)
     in fst (get_status db') = Return settings
        ∧ categories_file db' = categories_file db
        ∧ votes_file db' = votes_file db)
  ∧ (can_write db T_categories = true →
     let db' := snd (update_categories SECRET_KEY (Some SECRET_KEY)
                                       categories db)
     in fst (get_categories db') = Return categories
        ∧ settings_file db' = settings_file db
        ∧ votes_file db' = votes_file db).
Proof.
  split; intros Hw; run_handler;
    rewrite bool_decide_eq_false_2 by auto; simpl; by rewrite Hw.
Qed.

Lemma admin_update_round_trip_witness :
  fst (get_categories
         (snd (update_categories default_SECRET_KEY (Some default_SECRET_KEY)
                                 [] example_db)))
    = Return []
  ∧ votes_file (snd (update_categories default_SECRET_KEY
                                       (Some default_SECRET_KEY)
                                       [] example_db))
    = Some example_votes.
Proof.
  destruct (proj2 (admin_update_round_trip default_SECRET_KEY
                     Settings.defaults [] example_db) eq_refl)
    as (Hcats & _ & Hvotes).
  split; [exact Hcats | exact Hvotes].
Defined.

(** X9. The phase switch takes effect on the next request: once an
    authorized settings update with [is_voting_active] false has been
    saved, every cast and every reset is refused with status 400 and the
    results view shows the tally of the unchanged categories and ledger;
    once one with [is_voting_active] true has been saved, the results view
    is hidden. *)
Theorem phase_switch_takes_effect SECRET_KEY (settings : Settings.t) db :
  can_write db T_settings = true →
  let db' := snd (update_settings SECRET_KEY (Some SECRET_KEY) settings db) in
  (Settings.is_voting_active settings = false →
     (∀ utcnow vote_req request,
        fst (cast_vote utcnow vote_req request db')
        = Raise voting_closed_error)
     ∧ (∀ request payload,
          fst (reset_my_vote request payload db') = Raise reset_closed_error)
     ∧ fst (get_results db')
       = Return (mkResultsResponse true None
                   (Some (tally (current_categories db) (current_votes db)))))
  ∧ (Settings.is_voting_active settings = true →
     fst (get_results db')
     = Return (mkResultsResponse false (Some results_hidden_message) None)).
Proof.
  intros Hw db'.
  assert (current_settings db' = settings
          ∧ current_categories db' = current_categories db
          ∧ current_votes db' = current_votes db) as (Hs & Hc & Hv).
  { subst db'. run_handler. rewrite bool_decide_eq_false_2 by auto. simpl.
    by rewrite Hw. }
  split; intros Hphase.
  - split; [|split].
    + intros utcnow vote_req request. run_handler. by rewrite Hs, Hphase.
    + intros request payload. run_handler. by rewrite Hs, Hphase.
    + by rewrite get_results_eq, Hs, Hphase, Hc, Hv.
  - by rewrite get_results_eq, Hs, Hphase.
Qed.

Lemma phase_switch_takes_effect_witness :
  let db' := snd (update_settings default_SECRET_KEY (Some default_SECRET_KEY)
                                  Settings.defaults (open_db true 2 [])) in
  fst (cast_vote "2026-01-01T00:00:00" (VoteRequest.mk "best-cafe" "a")
                 (peer "1.2.3.1") db')
  = Raise voting_closed_error.
Proof.
  intros db'.
  destruct (phase_switch_takes_effect default_SECRET_KEY Settings.defaults
              (open_db true 2 []) eq_refl) as [Hclosed _].
  destruct (Hclosed eq_refl) as [Hcast _]. apply Hcast.
Defined.

(** X10. The my-votes view of an identity has one key per category in which
    the identity has a vote, mapped to the participants of those votes in
    ledger order, duplicates included; the length of that list is the count
    that [cast_vote] holds against the quota.  The handler loads the votes
    table and nothing else. *)
Theorem get_my_votes_view request db :
  ∃ my_votes,
    get_my_votes request db = (Return my_votes, record_access (Load T_votes) db)
    ∧ ∀ c_id,
        my_votes !! c_id
        = (if decide (my_participants (get_client_ip request) c_id
                                      (current_votes db) = [])
           then None
           else Some (my_participants (get_client_ip request) c_id
                                      (current_votes db)))
        ∧ Z.of_nat (length (my_participants (get_client_ip request) c_id
                                            (current_votes db)))
          = votes_cast (get_client_ip request) c_id db.
Proof.
  eexists. split; [apply get_my_votes_eq|]. intros c_id. split.
  - rewrite my_votes_lookup.
    by destruct (my_participants _ c_id (current_votes db)).
  - unfold my_participants, votes_cast. by rewrite length_fmap.
Qed.

(** X11. When the save of the votes table goes through, a cast by one
    identity, accepted or refused, never shows in, or disturbs, the my-votes
    view of another identity. *)
Theorem cast_vote_keeps_other_views utcnow vote_req request request' db :
  can_write db T_votes = true →
  get_client_ip request' ≠ get_client_ip request →
  fst (get_my_votes request' (snd (cast_vote utcnow vote_req request db)))
  = fst (get_my_votes request' db).
Proof.
  intros _ Hother. rewrite !get_my_votes_eq. simpl. f_equal.
  destruct (cast_vote_store utcnow vote_req request db)
    as (_ & _ & [Hv|[Hv _]]).
  - unfold current_votes. by rewrite Hv.
  - rewrite Hv, foldl_app. simpl. unfold my_votes_step, new_vote. simpl.
    by rewrite bool_decide_eq_false_2.
Qed.

Lemma cast_vote_keeps_other_views_witness :
  fst (get_my_votes (peer "1.2.3.2")
         (snd (cast_vote "2026-01-01T00:00:00"
                         (VoteRequest.mk "best-cafe" "a") (peer "1.2.3.1")
                         (open_db true 2 []))))
  = fst (get_my_votes (peer "1.2.3.2") (open_db true 2 [])).
Proof.
  apply cast_vote_keeps_other_views; [reflexivity | discriminate].
Defined.


(** *** Reset and recast *)

(** The store after a reset that passes its two checks, the votes table
    being writable. *)
Lemma reset_my_vote_ledger request (payload : gmap string string)
    (category_id : string) db :
  Settings.is_voting_active (current_settings db) = true →
  payload !! "category_id" = Some category_id →
  category_id ≠ "" →
  can_write db T_votes = true →
  let out := reset_my_vote request payload db in
  current_votes (snd out)
    = filter (fun v => ¬ (Vote.ip_address v = get_client_ip request
                          ∧ Vote.category_id v = category_id))
             (current_votes db)
  ∧ settings_file (snd out) = settings_file db
  ∧ categories_file (snd out) = categories_file db
  ∧ can_write (snd out) = can_write db.
Proof.
  intros Hopen Hpayload Hcid Hwrite. destruct category_id as [|c r]; [done|].
  run_handler. rewrite Hopen, Hpayload. simpl. forget_loads.
  destruct (length _ =? length (current_votes db))%nat eqn:Hlen; simpl.
  - apply Nat.eqb_eq, filter_length_eq in Hlen. by rewrite Hlen.
  - by rewrite Hwrite.
Qed.

(** X12. A reset gives the quota back: after a reset for a non-empty
    category (voting active, votes table writable) the identity has no
    vote left in that category, a second reset answers "skipped", and a
    cast by the identity in that category is accepted whenever the
    category exists with a positive [max_votes]. *)
Theorem reset_frees_quota request (payload : gmap string string)
    (category_id : string) db :
  Settings.is_voting_active (current_settings db) = true →
  payload !! "category_id" = Some category_id →
  category_id ≠ "" →
  can_write db T_votes = true →
  let db' := snd (reset_my_vote request payload db) in
  votes_cast (get_client_ip request) category_id db' = 0%Z
  ∧ fst (reset_my_vote request payload db') = Return reset_skipped
  ∧ ∀ utcnow p_id category,
      find_category category_id (current_categories db) = Some category →
      (0 < Category.max_votes category)%Z →
      fst (cast_vote utcnow (VoteRequest.mk category_id p_id) request db')
      = Return vote_accepted.
Proof.
  intros Hopen Hpayload Hcid Hwrite db'.
  destruct (reset_my_vote_ledger request payload category_id db
              Hopen Hpayload Hcid Hwrite) as (Hv & Hs & Hc & Hw).
  fold db' in Hv, Hs, Hc, Hw.
  assert (votes_of (get_client_ip request) category_id (current_votes db')
          = []) as Hnone by (rewrite Hv; apply votes_of_others_removed).
  assert (Settings.is_voting_active (current_settings db') = true) as Hopen'
    by (unfold current_settings; by rewrite Hs).
  split; [|split].
  - unfold votes_cast. by rewrite Hnone.
  - destruct category_id as [|c r]; [done|].
    run_handler. rewrite Hopen', Hpayload. simpl. forget_loads.
    apply votes_of_nil_keep_all in Hnone. by rewrite Hnone, Nat.eqb_refl.
  - intros utcnow p_id category Hfind Hpos.
    apply cast_vote_accepted; [done|by rewrite Hw|].
    intros _. exists category. simpl. split.
    + unfold current_categories. by rewrite Hc.
    + unfold votes_cast. by rewrite Hnone.
Qed.

Lemma reset_frees_quota_witness :
  let full :=
    open_db true 2
      [Vote.mk "best-cafe" "a" "1.2.3.1" "2026-01-01T00:00:01";
       Vote.mk "best-cafe" "b" "1.2.3.1" "2026-01-01T00:00:02"] in
  let db' := snd (reset_my_vote (peer "1.2.3.1") (reset_payload "best-cafe")
                                full) in
  fst (cast_vote "2026-01-01T00:00:03" (VoteRequest.mk "best-cafe" "a")
                 (peer "1.2.3.1") full)
    = Raise quota_exceeded_error
  ∧ fst (cast_vote "2026-01-01T00:00:04" (VoteRequest.mk "best-cafe" "a")
                   (peer "1.2.3.1") db')
    = Return vote_accepted.
Proof.
  intros full db'. split; [reflexivity|].
  destruct (reset_frees_quota (peer "1.2.3.1") (reset_payload "best-cafe")
              "best-cafe" full eq_refl eq_refl ltac:(discriminate) eq_refl)
    as (_ & _ & Hcast).
  apply (Hcast "2026-01-01T00:00:04" "a" (best_cafe 2)); [reflexivity|].
  simpl. lia.
Defined.

(** X13. A reset shows in the caller's my-votes view as the removal of the
    one category key, and in no other view: the caller's view afterwards is
    the view before without that key, and the view of every other identity
    is the same as before. *)
Theorem reset_my_vote_views request request' (payload : gmap string string)
    (category_id : string) db :
  Settings.is_voting_active (current_settings db) = true →
  payload !! "category_id" = Some category_id →
  category_id ≠ "" →
  can_write db T_votes = true →
  let db' := snd (reset_my_vote request payload db) in
  (∃ before,
     fst (get_my_votes request db) = Return before
     ∧ fst (get_my_votes request db') = Return (delete category_id before))
  ∧ (get_client_ip request' ≠ get_client_ip request →
     fst (get_my_votes request' db') = fst (get_my_votes request' db)).
Proof.
  intros Hopen Hpayload Hcid Hwrite db'.
  destruct (reset_my_vote_ledger request payload category_id db
              Hopen Hpayload Hcid Hwrite) as (Hv & _).
  fold db' in Hv. split.
  - eexists. split; [by rewrite get_my_votes_eq|].
    rewrite get_my_votes_eq. simpl. f_equal. apply map_eq. intros c_id.
    rewrite lookup_delete, !my_votes_lookup, Hv. unfold my_participants.
    case_decide as Hc.
    + subst c_id. by rewrite votes_of_others_removed.
    + rewrite votes_of_others_kept; [done|]. intros [_ ?]. congruence.
  - intros Hother. rewrite !get_my_votes_eq. simpl. f_equal.
    apply map_eq. intros c_id.
    rewrite !my_votes_lookup, Hv. unfold my_participants.
    rewrite votes_of_others_kept; [done|]. intros [? _]. congruence.
Qed.

Lemma reset_my_vote_views_witness :
  let db :=
    open_db true 2
      [Vote.mk "best-cafe" "a" "1.2.3.1" "t1";
       Vote.mk "best-park" "c" "1.2.3.1" "t2"] in
  fst (get_my_votes (peer "1.2.3.1")
         (snd (reset_my_vote (peer "1.2.3.1") (reset_payload "best-cafe") db)))
  = Return {[ "best-park" := ["c"] ]}.
Proof.
  intros db.
  destruct (reset_my_vote_views (peer "1.2.3.1") (peer "1.2.3.1")
              (reset_payload "best-cafe") "best-cafe" db
              eq_refl eq_refl ltac:(discriminate) eq_refl)
    as [(before & Hbefore & Hafter) _].
  rewrite Hafter. injection Hbefore as <-. by vm_compute.
Defined.

(** *** More on the tally *)

Lemma votes_for_Permutation (c_id p_id : string) (votes votes' : list Vote.t) :
  votes ≡ₚ votes' → votes_for c_id p_id votes = votes_for c_id p_id votes'.
Proof. intros Hperm. unfold votes_for. by rewrite Hperm. Qed.

(** X14. The tally does not depend on the order of the ledger: two ledgers
    that hold the same records in any order give the same results. *)
Theorem tally_order_independent (categories : list Category.t)
    (votes votes' : list Vote.t) :
  votes ≡ₚ votes' → tally categories votes = tally categories votes'.
Proof.
  intros Hperm. apply map_eq. intros c_id.
  destruct (tally categories votes !! c_id) as [counts|] eqn:Hl;
    destruct (tally categories votes' !! c_id) as [counts'|] eqn:Hl'.
  - f_equal. apply map_eq. intros p_id.
    destruct (tally_counts _ _ _ _ Hl) as (zeros & Hz & Hp).
    destruct (tally_counts _ _ _ _ Hl') as (zeros' & Hz' & Hp').
    assert (zeros' = zeros) as -> by congruence.
    by rewrite Hp, Hp', (votes_for_Permutation c_id p_id votes votes').
  - apply foldl_count_vote_lookup_None in Hl'.
    apply (foldl_count_vote_lookup_None _ votes) in Hl'.
    unfold tally in Hl. congruence.
  - apply foldl_count_vote_lookup_None in Hl.
    apply (foldl_count_vote_lookup_None _ votes') in Hl.
    unfold tally in Hl'. congruence.
  - done.
Qed.

Lemma tally_order_independent_witness :
  tally [c1] (reverse example_votes) = tally [c1] example_votes.
Proof.
  apply tally_order_independent. apply reverse_Permutation.
Defined.

(** X15. An accepted vote counts once: after a cast that passes the checks
    (votes table writable), the counter of the vote's own
    (category, participant) pair, when the results have one, is one higher
    than before, and every other counter and the set of counters are as
    before. *)
Theorem accepted_vote_counts_once utcnow vote_req request db :
  Settings.is_voting_active (current_settings db) = true →
  can_write db T_votes = true →
  (Settings.anti_abuse_enabled (current_settings db) = true →
   ∃ category,
     find_category (VoteRequest.category_id vote_req) (current_categories db)
       = Some category
     ∧ (votes_cast (get_client_ip request) (VoteRequest.category_id vote_req)
                   db < Category.max_votes category)%Z) →
  let db' := snd (cast_vote utcnow vote_req request db) in
  ∀ c_id p_id,
    count_of (tally (current_categories db') (current_votes db')) c_id p_id
    = (fun n => if decide (VoteRequest.category_id vote_req = c_id
                           ∧ VoteRequest.participant_id vote_req = p_id)
                then S n else n)
      <$> count_of (tally (current_categories db) (current_votes db))
                   c_id p_id.
Proof.
  intros Hopen Hwrite Hchecks db' c_id p_id.
  destruct (cast_vote_accepted utcnow vote_req request db Hopen Hwrite Hchecks)
    as (_ & _ & Hc & Hv).
  fold db' in Hc, Hv. unfold current_categories at 1, current_votes at 1.
  rewrite Hc, Hv. simpl. fold (current_categories db). unfold tally.
  rewrite foldl_app. simpl. by rewrite count_vote_count_of.
Qed.

Lemma accepted_vote_counts_once_witness :
  let db' := snd (cast_vote "2026-01-01T00:00:00"
                            (VoteRequest.mk "best-cafe" "a") (peer "1.2.3.1")
                            (open_db true 2 [])) in
  count_of (tally (current_categories db') (current_votes db')) "best-cafe" "a"
    = Some 1%nat
  ∧ count_of (tally (current_categories db') (current_votes db'))
             "best-cafe" "b"
    = Some 0%nat.
Proof.
  intros db'.
  pose proof (accepted_vote_counts_once "2026-01-01T00:00:00"
                (VoteRequest.mk "best-cafe" "a") (peer "1.2.3.1")
                (open_db true 2 []) eq_refl eq_refl) as Hcount.
  split; rewrite Hcount; try by vm_compute.
  all: intros _; exists (best_cafe 2); split; [reflexivity|by vm_compute].
Defined.


(** *** More on identity resolution *)

Lemma all_space_no_comma (s : string) :
  all_space s = true → has_char "," s = false.
Proof.
  induction s as [|c s IH]; [done|]. simpl.
  intros [Hc Hs]%andb_true_iff. rewrite (IH Hs), orb_false_r.
  apply bool_decide_eq_false_2. intros ->. by vm_compute in Hc.
Qed.

Lemma has_char_append (sep : ascii) (s t : string) :
  has_char sep (String.append s t) = has_char sep s || has_char sep t.
Proof.
  induction s as [|c s IH]; [done|].
  rewrite append_String. simpl. by rewrite IH, orb_assoc.
Qed.

(** The entries of a string that starts with an entry free of separators. *)
Lemma split_first_entry (sep : ascii) (e rest : string) :
  has_char sep e = false →
  split sep e = [e]
  ∧ split sep (String.append e (String sep rest)) = e :: split sep rest.
Proof.
  induction e as [|c e IH].
  - intros _. rewrite append_empty. simpl. by rewrite bool_decide_eq_true_2.
  - rewrite append_String. simpl.
    intros [Hc He]%orb_false_iff. destruct (IH He) as [-> ->].
    by rewrite Hc.
Qed.

Lemma lstrip_spaces (l s : string) :
  all_space l = true → lstrip (String.append l s) = lstrip s.
Proof.
  induction l as [|c l IH]; [done|]. simpl.
  intros [-> Hl]%andb_true_iff. by apply IH.
Qed.

Lemma lstrip_id (s : string) : starts_with_space s = false → lstrip s = s.
Proof. destruct s as [|c s]; simpl; [done|]. by intros ->. Qed.

Lemma rstrip_spaces (r : string) : all_space r = true → rstrip r = EmptyString.
Proof.
  induction r as [|c r IH]; [done|]. simpl.
  intros [-> Hr]%andb_true_iff. by rewrite IH.
Qed.

Lemma rstrip_append (t r : string) :
  ends_with_space t = false → all_space r = true →
  rstrip (String.append t r) = t.
Proof.
  intros Hend Hr. induction t as [|c t IH]; simpl.
  - by apply rstrip_spaces.
  - destruct t as [|c' t].
    + rewrite append_empty, (rstrip_spaces r Hr). simpl in Hend.
      by rewrite Hend.
    + rewrite IH by done. done.
Qed.

(** X16. With no usable [CF-Connecting-IP] header, an [X-Forwarded-For]
    value made of an address, optional white space around it and
    optionally a comma and further hops resolves to exactly that first
    address; the peer address and the later hops play no part. *)
Theorem forwarded_first_hop request (l addr r rest : string) :
  truthy (headers_get "CF-Connecting-IP" (headers request)) = false →
  addr ≠ EmptyString →
  has_char "," addr = false →
  starts_with_space addr = false →
  ends_with_space addr = false →
  all_space l = true →
  all_space r = true →
  (headers_get "X-Forwarded-For" (headers request)
     = Some (String.append l (String.append addr r))
   ∨ headers_get "X-Forwarded-For" (headers request)
     = Some (String.append (String.append l (String.append addr r))
                           (String "," rest))) →
  get_client_ip request = addr.
Proof.
  intros Hcf Haddr Hcomma Hstart Hend Hl Hr Hfwd.
  set (entry := String.append l (String.append addr r)).
  assert (has_char "," entry = false) as Hentry.
  { unfold entry. rewrite !has_char_append, Hcomma.
    by rewrite (all_space_no_comma l), (all_space_no_comma r). }
  assert (strip entry = addr) as Hstrip.
  { unfold strip, entry. rewrite lstrip_spaces by done.
    rewrite lstrip_id.
    - by apply rstrip_append.
    - destruct addr; [done|]. by rewrite append_String. }
  assert (entry ≠ EmptyString) as Hne.
  { unfold entry. intros Hempty.
    destruct l; [|done]. rewrite append_empty in Hempty.
    by destruct addr. }
  destruct (split_first_entry "," entry rest Hentry) as [Hone Hmore].
  unfold get_client_ip. rewrite Hcf.
  destruct Hfwd as [-> | ->]; fold entry.
  - destruct entry; [done|]. simpl in *. by rewrite Hone.
  - destruct entry as [|c e]; [done|]. rewrite append_String in *.
    cbn [truthy from_option id]. by rewrite Hmore.
Qed.

Lemma forwarded_first_hop_witness :
  get_client_ip
    (mkRequest [("x-forwarded-for", " 203.0.113.7 , 10.0.0.1, 10.0.0.2")]
               "10.0.0.3")
  = "203.0.113.7".
Proof.
  apply (forwarded_first_hop _ " " "203.0.113.7" " " " 10.0.0.1, 10.0.0.2");
    try reflexivity; [discriminate|]. by right.
Defined.

(** *** Login and start-up *)

(** X17. A login never touches the store.  A password whose digest is the
    configured one is answered with the shared secret, and that token
    passes the gate of the privileged operations; any other password is
    refused with status 401. *)
Theorem admin_login_token (sha256_hexdigest : string → string)
    (ADMIN_PASSWORD_HASH SECRET_KEY : string) (login : AdminLogin.t) db :
  (sha256_hexdigest (AdminLogin.password login) = ADMIN_PASSWORD_HASH →
     ∃ token,
       admin_login sha256_hexdigest ADMIN_PASSWORD_HASH SECRET_KEY login db
         = (Return token, db)
       ∧ verify_admin SECRET_KEY (Some token) db = (Return tt, db)
       ∧ fst (get_admin_data SECRET_KEY (Some token) db)
         = Return (mkAdminData (current_settings db) (current_categories db)
                               (current_votes db)))
  ∧ (sha256_hexdigest (AdminLogin.password login) ≠ ADMIN_PASSWORD_HASH →
     admin_login sha256_hexdigest ADMIN_PASSWORD_HASH SECRET_KEY login db
       = (Raise wrong_password_error, db)
     ∧ status_code wrong_password_error = 401%Z).
Proof.
  unfold admin_login. split; intros Hdigest.
  - rewrite bool_decide_eq_true_2 by done. exists SECRET_KEY.
    run_handler. by rewrite bool_decide_eq_false_2 by auto.
  - by rewrite bool_decide_eq_false_2.
Qed.

Lemma admin_login_token_witness :
  (∃ token,
     admin_login example_digest
       "8d969eef6ecad3c29a3a629280e686cf0c3f5d5a86aff3ca12020c923adc6c92"
       default_SECRET_KEY (AdminLogin.mk "123456") fresh_db
       = (Return token, fresh_db)
     ∧ verify_admin default_SECRET_KEY (Some token) fresh_db
       = (Return tt, fresh_db))
  ∧ admin_login example_digest
      "8d969eef6ecad3c29a3a629280e686cf0c3f5d5a86aff3ca12020c923adc6c92"
      default_SECRET_KEY (AdminLogin.mk "letmein") fresh_db
    = (Raise wrong_password_error, fresh_db).
Proof.
  split.
  - destruct (proj1 (admin_login_token example_digest
                "8d969eef6ecad3c29a3a629280e686cf0c3f5d5a86aff3ca12020c923adc6c92"
                default_SECRET_KEY (AdminLogin.mk "123456") fresh_db) eq_refl)
      as (token & Hlogin & Hgate & _).
    exists token. split; [exact Hlogin | exact Hgate].
  - apply (proj2 (admin_login_token example_digest
                "8d969eef6ecad3c29a3a629280e686cf0c3f5d5a86aff3ca12020c923adc6c92"
                default_SECRET_KEY (AdminLogin.mk "letmein") fresh_db)).
    discriminate.
Defined.

Lemma first_free_port_spec (is_port_in_use : Z → bool) (ports : list Z)
    (port_to_use : Z) :
  let port := first_free_port is_port_in_use ports port_to_use in
  (∃ busy rest, ports = (busy ++ port :: rest)%list
                ∧ is_port_in_use port = false
                ∧ Forall (fun p => is_port_in_use p = true) busy)
  ∨ (Forall (fun p => is_port_in_use p = true) ports ∧ port = port_to_use).
Proof.
  induction ports as [|p ports IH]; simpl.
  - right. by split.
  - destruct (is_port_in_use p) eqn:Hp; simpl.
    + destruct IH as [(busy & rest & Hports & Hfree & Hbusy)|[Hall Hport]].
      * left. exists (p :: busy), rest. rewrite Hports at 1.
        split; [done|]. split; [done|]. by constructor.
      * right. split; [by constructor|done].
    + left. exists [], ports. by repeat split.
Qed.

(** X18. The API port chosen at start-up is always one of the three
    preferred ports and never the frontend's port: it is the first
    preferred port that the probe finds free, every preferred port before it
    being in use; when all three are in use it is 55000 all the same. *)
Theorem select_port_spec (is_port_in_use : Z → bool) :
  let port := select_port is_port_in_use in
  port ∈ PREFERRED_PORTS
  ∧ port ≠ FRONTEND_PORT
  ∧ ((∃ busy rest, PREFERRED_PORTS = (busy ++ port :: rest)%list
                   ∧ is_port_in_use port = false
                   ∧ Forall (fun p => is_port_in_use p = true) busy)
     ∨ (Forall (fun p => is_port_in_use p = true) PREFERRED_PORTS
        ∧ port = 55000%Z)).
Proof.
  intros port.
  pose proof (first_free_port_spec is_port_in_use PREFERRED_PORTS 55000%Z)
    as Hspec.
  change (first_free_port is_port_in_use PREFERRED_PORTS 55000%Z)
    with port in Hspec. simpl in Hspec.
  assert (port ∈ PREFERRED_PORTS) as Hin.
  { destruct Hspec as [(busy & rest & -> & _)|[_ ->]].
    - apply elem_of_app. right. by left.
    - by left. }
  split; [done|]. split; [|done].
  intros Heq. rewrite Heq in Hin. unfold PREFERRED_PORTS, FRONTEND_PORT in Hin.
  repeat (apply elem_of_cons in Hin as [Hin|Hin]; [discriminate|]).
  by apply elem_of_nil in Hin.
Qed.


(** *** Files that do not exist or do not parse *)

(** X19. A table whose file does not exist or does not parse as JSON reads
    as its default, with these effects: when the settings file is such a
    file voting is closed, so every cast is refused and the results are
    visible; when the votes file is such a file every my-votes view is
    empty, and an accepted cast saves a ledger that holds the new vote
    alone. *)
Theorem absent_files_read_as_defaults utcnow vote_req request db :
  (settings_file db = None →
     fst (cast_vote utcnow vote_req request db) = Raise voting_closed_error
     ∧ fst (get_results db)
       = Return (mkResultsResponse true None
                   (Some (tally (current_categories db) (current_votes db)))))
  ∧ (votes_file db = None →
     fst (get_my_votes request db) = Return ∅
     ∧ (fst (cast_vote utcnow vote_req request db) = Return vote_accepted →
        votes_file (snd (cast_vote utcnow vote_req request db))
        = Some [new_vote utcnow vote_req request])).
Proof.
  split.
  - intros Hmissing.
    assert (current_settings db = Settings.defaults) as Hs
      by (unfold current_settings; by rewrite Hmissing).
    split.
    + run_handler. by rewrite Hs.
    + by rewrite get_results_eq, Hs.
  - intros Hmissing.
    assert (current_votes db = []) as Hv
      by (unfold current_votes; by rewrite Hmissing).
    split.
    + by rewrite get_my_votes_eq, Hv.
    + intros Hok.
      destruct (cast_vote_store utcnow vote_req request db)
        as (_ & _ & [Hsame|[Happ _]]).
      * exfalso. revert Hok Hsame. run_handler.
        destruct (Settings.is_voting_active (current_settings db)); simpl;
          [|done].
        destruct (Settings.anti_abuse_enabled (current_settings db)); simpl;
          forget_loads.
        -- destruct (find_category _ (current_categories db)); simpl; [|done].
           destruct (_ >=? _)%Z; simpl; [done|].
           destruct (can_write db T_votes); simpl; [|done].
           rewrite Hmissing. done.
        -- destruct (can_write db T_votes); simpl; [|done].
           rewrite Hmissing. done.
      * rewrite Hv in Happ. simpl in Happ. revert Hok Happ. run_handler.
        destruct (Settings.is_voting_active (current_settings db)); simpl;
          [|done].
        destruct (Settings.anti_abuse_enabled (current_settings db)); simpl;
          forget_loads.
        -- destruct (find_category _ (current_categories db)); simpl; [|done].
           destruct (_ >=? _)%Z; simpl; [done|].
           destruct (can_write db T_votes); simpl; [|done].
           by rewrite Hv.
        -- destruct (can_write db T_votes); simpl; [|done].
           by rewrite Hv.
Qed.

Lemma absent_files_read_as_defaults_witness :
  let db := mkJsonDB None (Some [best_cafe 2]) None (fun _ => true) [] in
  fst (cast_vote "2026-01-01T00:00:00" (VoteRequest.mk "best-cafe" "a")
                 (peer "1.2.3.1") db)
    = Raise voting_closed_error
  ∧ fst (get_my_votes (peer "1.2.3.1") db) = Return ∅.
Proof.
  intros db.
  destruct (absent_files_read_as_defaults "2026-01-01T00:00:00"
              (VoteRequest.mk "best-cafe" "a") (peer "1.2.3.1") db)
    as [Hsettings Hvotes].
  split.
  - by apply Hsettings.
  - by apply Hvotes.
Defined.

End Handlers.
